(** * The backtesting simulator of algo_trading

    A shallow embedding of [src/src/strategy/backtester.py] (class
    [Backtester]: [generate_signals] and [simulate_trading]) and of the
    indicator functions of [src/src/data/indicators.py] it calls; then of
    the other users of the indicators, [TradingStrategy.analyze_stock]
    ([src/src/strategy/strategy.py]) and [StockPredictor.prepare_features]
    ([src/src/ml/model.py]), and of [TradingLogger._safe_message]
    ([src/logger.py]).

    Conventions of the embedding.
    - A pandas [Timestamp] of a daily bar is its day number, a [Z];
      [(date - buy_date).days] is the difference of the two day numbers.
    - Share counts are Python [int]s, here [Z].
    - Prices and money are binary64 floats in the program.  The general
      model reads them as exact rationals ([Q]); a float that is NaN is
      [None] in an [option Q] column, and equalities between amounts are
      stated with [==] ([Qeq]).  What is proved of this model is the
      order of events, which rows and trades exist, which entries are
      defined, and comparisons with a margin; no figure is taken from
      it.
    - The figures of a run are computed in [Binary64], the same simulator
      on the kernel's binary64 floats, which rounds as the program does.
    - [int(x)] raises on an infinite or NaN argument.  The simulator calls
      it on the quotient [investment_amount / price], which is one of the
      two exactly when the price is zero, so the simulation runs in an
      error monad. *)

From Stdlib Require Import ZArith QArith Qround List Sorted Bool Lia Lqa.
From Stdlib Require Import Floats.
From Stdlib Require String.
Import ListNotations.
Open Scope Q_scope.

(* A decimal float literal denotes the nearest double, as in Python. *)
Set Warnings "-inexact-float".

(** ** Python exceptions and the error monad *)

Inductive exn : Type :=
| OverflowError   (* int(inf): cannot convert float infinity to integer *)
| ValueError.     (* int(nan): cannot convert float NaN to integer *)

Inductive result (A : Type) : Type :=
| Ok (a : A)
| Raise (e : exn).

Arguments Ok {A} a.
Arguments Raise {A} e.

Definition bind {A B : Type} (m : result A) (k : A -> result B) : result B :=
  match m with
  | Ok a => k a
  | Raise e => Raise e
  end.

Notation "x <- m ;; k" := (bind m (fun x => k))
  (at level 61, m at next level, right associativity).

(** ** Numbers *)

Definition Qlt_bool (x y : Q) : bool := negb (Qle_bool y x).

(** Python's [int(x)] on a finite float: truncation toward zero. *)
Definition int_of (x : Q) : Z := Z.quot (Qnum x) (Zpos (Qden x)).

(** [int(num / den)] on floats: a zero divisor makes the quotient infinite
    (or NaN for 0/0) and [int] then raises. *)
Definition int_of_quotient (num den : Q) : result Z :=
  if Qeq_bool den 0 then
    if Qeq_bool num 0 then Raise ValueError else Raise OverflowError
  else Ok (int_of (num / den)).

(** ** Data model *)

(** One row of the [signals] DataFrame; its index label is [date]. *)
Record Row : Type := mkRow {
  date   : Z;
  Price  : Q;
  RSI    : option Q;
  MA20   : option Q;
  MA50   : option Q;
  Signal : Z            (* 0 = Hold, 1 = Buy, -1 = Sell *)
}.

Definition set_Signal (v : Z) (r : Row) : Row :=
  mkRow (date r) (Price r) (RSI r) (MA20 r) (MA50 r) v.

Inductive Action : Type := BUY | SELL.

Record Trade : Type := mkTrade {
  trade_date            : Z;
  action                : Action;
  trade_shares          : Z;
  trade_price           : Q;
  value                 : Q;
  trade_portfolio_value : Q
}.

Record HistoryPoint : Type := mkPoint {
  point_date      : Z;
  portfolio_value : Q;
  point_price     : Q;
  point_cash      : Q;
  point_shares    : Z
}.

(** The [portfolio] dict. *)
Record Portfolio : Type := mkPortfolio {
  cash        : Q;
  shares      : Z;
  total_value : Q
}.

(** The attributes of a [Backtester] the simulation reads. *)
Record Backtester : Type := mkBacktester {
  initial_capital   : Q;
  transaction_cost  : Q;
  max_position_size : Q
}.

(** [Backtester.__init__].  The program holds the doubles nearest to
    0.001 and 0.3 ([Binary64.Backtester_init] below); here they are the
    two decimals themselves. *)
Definition Backtester_init (initial_capital : Q) : Backtester :=
  {| initial_capital   := initial_capital;
     transaction_cost  := 1 # 1000;   (* 0.001 *)
     max_position_size := 3 # 10 |}.  (* 0.3 *)

(** ** [Backtester.simulate_trading] *)

(** The three locals the loop mutates. *)
Record Sim : Type := mkSim {
  portfolio         : Portfolio;
  trades            : list Trade;
  portfolio_history : list HistoryPoint
}.

Definition sim_start (self : Backtester) : Sim :=
  {| portfolio := {| cash := initial_capital self;
                     shares := 0;
                     total_value := initial_capital self |};
     trades := [];
     portfolio_history := [] |}.

(** One iteration of the loop over [signals.iterrows()]. *)
Definition simulate_day (self : Backtester) (st : Sim) (row : Row) : result Sim :=
  let signal := Signal row in
  let price := Price row in
  let p := portfolio st in
  (* Calculate current portfolio value *)
  let current_value := cash p + inject_Z (shares p) * price in
  let p := {| cash := cash p; shares := shares p; total_value := current_value |} in
  (* Record daily portfolio value *)
  let history := portfolio_history st ++
    [ {| point_date := date row;
         portfolio_value := current_value;
         point_price := price;
         point_cash := cash p;
         point_shares := shares p |} ] in
  (* Execute trades *)
  if (signal =? 1)%Z && (shares p =? 0)%Z then
    let investment_amount := current_value * max_position_size self in
    shares_to_buy <- int_of_quotient investment_amount price ;;
    if (shares_to_buy >? 0)%Z then
      let total_cost :=
        inject_Z shares_to_buy * price * (1 + transaction_cost self) in
      if Qle_bool total_cost (cash p) then
        Ok {| portfolio := {| cash := cash p - total_cost;
                              shares := shares p + shares_to_buy;
                              total_value := total_value p |};
              trades := trades st ++
                [ {| trade_date := date row;
                     action := BUY;
                     trade_shares := shares_to_buy;
                     trade_price := price;
                     value := total_cost;
                     trade_portfolio_value := current_value |} ];
              portfolio_history := history |}
      else Ok {| portfolio := p; trades := trades st; portfolio_history := history |}
    else Ok {| portfolio := p; trades := trades st; portfolio_history := history |}
  else if (signal =? -1)%Z && (shares p >? 0)%Z then
    let total_sale :=
      inject_Z (shares p) * price * (1 - transaction_cost self) in
    Ok {| portfolio := {| cash := cash p + total_sale;
                          shares := 0;
                          total_value := total_value p |};
          trades := trades st ++
            [ {| trade_date := date row;
                 action := SELL;
                 trade_shares := shares p;
                 trade_price := price;
                 value := total_sale;
                 trade_portfolio_value := current_value |} ];
          portfolio_history := history |}
  else Ok {| portfolio := p; trades := trades st; portfolio_history := history |}.

(** The loop, from any state. *)
Fixpoint simulate_from (self : Backtester) (st : Sim) (signals : list Row)
  : result Sim :=
  match signals with
  | [] => Ok st
  | row :: rest => st' <- simulate_day self st row ;; simulate_from self st' rest
  end.

(** [simulate_trading] returns [trades, portfolio_history, portfolio]. *)
Definition simulate_trading (self : Backtester) (signals : list Row)
  : result (list Trade * list HistoryPoint * Portfolio) :=
  st <- simulate_from self (sim_start self) signals ;;
  Ok (trades st, portfolio_history st, portfolio st).

(** ** [Backtester.simulate_trading] on binary64 floats

    The same class and the same loop with every amount a binary64 float,
    as the program holds it: the kernel's [float], whose operations round
    to nearest, ties to even, like Python's and numpy's.  A run of this
    model on given rows computes the very numbers the program computes. *)

Module Binary64.

(** Python's [int(x)] on a float: truncation toward zero; it raises on an
    infinity and on NaN. *)
Definition int_of (x : float) : result Z :=
  match Prim2SF x with
  | S754_zero _ => Ok 0%Z
  | S754_finite s m e =>
      let n := Z.shiftl (Zpos m) e in
      Ok (if s then (- n)%Z else n)
  | S754_infinity _ => Raise OverflowError
  | S754_nan => Raise ValueError
  end.

(** A Python [int] met by a float operand: the nearest double.  The
    share counts of the simulation come out of [int_of], so they are
    integers that a double holds exactly. *)
Definition float_of_int (n : Z) : float :=
  SF2Prim (binary_normalize prec emax n 0 false).

Record Row : Type := mkRow {
  date   : Z;
  Price  : float;
  RSI    : float;
  MA20   : float;
  MA50   : float;
  Signal : Z
}.

Record Trade : Type := mkTrade {
  trade_date            : Z;
  action                : Action;
  trade_shares          : Z;
  trade_price           : float;
  value                 : float;
  trade_portfolio_value : float
}.

Record HistoryPoint : Type := mkPoint {
  point_date      : Z;
  portfolio_value : float;
  point_price     : float;
  point_cash      : float;
  point_shares    : Z
}.

Record Portfolio : Type := mkPortfolio {
  cash        : float;
  shares      : Z;
  total_value : float
}.

Record Backtester : Type := mkBacktester {
  initial_capital   : float;
  transaction_cost  : float;
  max_position_size : float
}.

(** [Backtester.__init__]: the two constants are the doubles nearest to
    0.001 and 0.3. *)
Definition Backtester_init (initial_capital : float) : Backtester :=
  {| initial_capital   := initial_capital;
     transaction_cost  := 0.001;
     max_position_size := 0.3 |}.

Record Sim : Type := mkSim {
  portfolio         : Portfolio;
  trades            : list Trade;
  portfolio_history : list HistoryPoint
}.

Definition sim_start (self : Backtester) : Sim :=
  {| portfolio := {| cash := initial_capital self;
                     shares := 0;
                     total_value := initial_capital self |};
     trades := [];
     portfolio_history := [] |}.

(** One iteration of the loop over [signals.iterrows()]. *)
Definition simulate_day (self : Backtester) (st : Sim) (row : Row) : result Sim :=
  let signal := Signal row in
  let price := Price row in
  let p := portfolio st in
  (* Calculate current portfolio value *)
  let current_value := (cash p + float_of_int (shares p) * price)%float in
  let p := {| cash := cash p; shares := shares p; total_value := current_value |} in
  (* Record daily portfolio value *)
  let history := portfolio_history st ++
    [ {| point_date := date row;
         portfolio_value := current_value;
         point_price := price;
         point_cash := cash p;
         point_shares := shares p |} ] in
  (* Execute trades *)
  if (signal =? 1)%Z && (shares p =? 0)%Z then
    let investment_amount := (current_value * max_position_size self)%float in
    shares_to_buy <- int_of (investment_amount / price)%float ;;
    if (shares_to_buy >? 0)%Z then
      let total_cost :=
        (float_of_int shares_to_buy * price * (1 + transaction_cost self))%float in
      if (total_cost <=? cash p)%float then
        Ok {| portfolio := {| cash := (cash p - total_cost)%float;
                              shares := (shares p + shares_to_buy)%Z;
                              total_value := total_value p |};
              trades := trades st ++
                [ {| trade_date := date row;
                     action := BUY;
                     trade_shares := shares_to_buy;
                     trade_price := price;
                     value := total_cost;
                     trade_portfolio_value := current_value |} ];
              portfolio_history := history |}
      else Ok {| portfolio := p; trades := trades st; portfolio_history := history |}
    else Ok {| portfolio := p; trades := trades st; portfolio_history := history |}
  else if (signal =? -1)%Z && (shares p >? 0)%Z then
    let total_sale :=
      (float_of_int (shares p) * price * (1 - transaction_cost self))%float in
    Ok {| portfolio := {| cash := (cash p + total_sale)%float;
                          shares := 0;
                          total_value := total_value p |};
          trades := trades st ++
            [ {| trade_date := date row;
                 action := SELL;
                 trade_shares := shares p;
                 trade_price := price;
                 value := total_sale;
                 trade_portfolio_value := current_value |} ];
          portfolio_history := history |}
  else Ok {| portfolio := p; trades := trades st; portfolio_history := history |}.

Fixpoint simulate_from (self : Backtester) (st : Sim) (signals : list Row)
  : result Sim :=
  match signals with
  | [] => Ok st
  | row :: rest => st' <- simulate_day self st row ;; simulate_from self st' rest
  end.

(** [simulate_trading] returns [trades, portfolio_history, portfolio]. *)
Definition simulate_trading (self : Backtester) (signals : list Row)
  : result (list Trade * list HistoryPoint * Portfolio) :=
  st <- simulate_from self (sim_start self) signals ;;
  Ok (trades st, portfolio_history st, portfolio st).

(** Two days: a Buy at 100, then a Sell at 110; no indicator is read. *)
Definition scenario : list Row :=
  [ mkRow 1 100 nan nan nan 1%Z; mkRow 2 110 nan nan nan (-1)%Z ].

End Binary64.

(** ** [TechnicalIndicators] *)

(** Elementwise float comparisons of two columns: false when either
    operand is NaN. *)
Definition lt_nan (a b : option Q) : bool :=
  match a, b with
  | Some x, Some y => Qlt_bool x y
  | _, _ => false
  end.

Definition gt_nan (a b : option Q) : bool := lt_nan b a.

(** [prices.diff()]: NaN first, then the day-to-day changes. *)
Fixpoint diff_from (prev : Q) (prices : list Q) : list (option Q) :=
  match prices with
  | [] => []
  | p :: rest => Some (p - prev) :: diff_from p rest
  end.

Definition diff (prices : list Q) : list (option Q) :=
  match prices with
  | [] => []
  | p :: rest => None :: diff_from p rest
  end.

(** [s.where(cond, other)]: keep the entry where [cond] holds, else
    [other]. *)
Definition where_ (cond : option Q -> bool) (other : Q) (s : list (option Q))
  : list (option Q) :=
  map (fun x => if cond x then x else Some other) s.

(** Sum of a window; NaN when an observation is NaN. *)
Fixpoint sum_nan (xs : list (option Q)) : option Q :=
  match xs with
  | [] => Some 0
  | None :: _ => None
  | Some x :: rest =>
      match sum_nan rest with
      | Some s => Some (x + s)
      | None => None
      end
  end.

(** Mean of a full window of [window] observations; NaN for a window
    without observations ([rolling(0)]). *)
Definition mean_nan (window : nat) (xs : list (option Q)) : option Q :=
  if (window =? 0)%nat then None
  else
    match sum_nan xs with
    | Some s => Some (s / inject_Z (Z.of_nat window))
    | None => None
    end.

(** [s.rolling(window=window).mean()]: entry [i] is the mean of entries
    [i-window+1 .. i], and NaN while fewer than [window] entries exist.
    The mean is the exact one; pandas' running sum may differ from it in
    the last bits. *)
Definition rolling_mean (window : nat) (s : list (option Q)) : list (option Q) :=
  map (fun i =>
         if (S i <? window)%nat then None
         else mean_nan window (firstn window (skipn (S i - window) s)))
      (seq 0 (length s)).

(** [rs = gain / loss] and [rsi = 100 - (100 / (1 + rs))] on one entry.
    With a zero [loss] the float quotient is infinite when [gain] is not
    zero, so [100 / (1 + rs)] is a zero and [rsi] is 100; 0/0 is NaN.
    [gain] and [loss] are means of non-negative numbers, so [1 + rs] is
    positive when [rs] is finite ([rsi_denominator_positive] below) and
    the last division is an ordinary one. *)
Definition rsi_entry (gain loss : option Q) : option Q :=
  match gain, loss with
  | Some g, Some l =>
      if Qeq_bool l 0 then
        if Qeq_bool g 0 then None else Some 100
      else Some (100 - 100 / (1 + g / l))
  | _, _ => None
  end.

Fixpoint zip_with {A B C : Type} (f : A -> B -> C) (xs : list A) (ys : list B)
  : list C :=
  match xs, ys with
  | x :: xs', y :: ys' => f x y :: zip_with f xs' ys'
  | _, _ => []
  end.

Definition calculate_rsi (prices : list Q) (period : nat) : list (option Q) :=
  let delta := diff prices in
  let gain :=
    rolling_mean period (where_ (fun d => gt_nan d (Some 0)) 0 delta) in
  let loss :=
    rolling_mean period
      (map (option_map Qopp) (where_ (fun d => lt_nan d (Some 0)) 0 delta)) in
  zip_with rsi_entry gain loss.

Definition calculate_moving_averages (prices : list Q)
    (short_window long_window : nat) : list (option Q) * list (option Q) :=
  let ma_short := rolling_mean short_window (map Some prices) in
  let ma_long := rolling_mean long_window (map Some prices) in
  (ma_short, ma_long).

(** ** [Backtester.generate_signals] *)

(** The frame [signals] as first built: index and [Price] from [data],
    the three indicator columns, and [Signal] set to 0. *)
Fixpoint make_frame (data : list (Z * Q)) (rsi ma20 ma50 : list (option Q))
  : list Row :=
  match data with
  | [] => []
  | (d, close) :: data' =>
      mkRow d close (hd None rsi) (hd None ma20) (hd None ma50) 0
      :: make_frame data' (tl rsi) (tl ma20) (tl ma50)
  end.

Definition buy_condition (r : Row) : bool :=
  lt_nan (RSI r) (Some 30) && gt_nan (MA20 r) (MA50 r).

Definition sell_condition (r : Row) : bool :=
  gt_nan (RSI r) (Some 50) || lt_nan (MA20 r) (MA50 r).

(** [signals.loc[mask, 'Signal'] = v] for a boolean mask. *)
Definition loc_mask_set_Signal (mask : Row -> bool) (v : Z) (signals : list Row)
  : list Row :=
  map (fun r => if mask r then set_Signal v r else r) signals.

(** [signals.loc[label, 'Signal'] = v]: every row whose index is
    [label]. *)
Definition loc_set_Signal (label : Z) (v : Z) (signals : list Row) : list Row :=
  map (fun r => if (date r =? label)%Z then set_Signal v r else r) signals.

(** The frame with the strategy applied, before the time-based exit. *)
Definition strategy_signals (data : list (Z * Q)) : list Row :=
  let close := map snd data in
  let rsi := calculate_rsi close 14 in
  let '(ma20, ma50) := calculate_moving_averages close 20 50 in
  let signals := make_frame data rsi ma20 ma50 in
  let signals := loc_mask_set_Signal buy_condition 1 signals in
  let signals := loc_mask_set_Signal sell_condition (-1) signals in
  signals.

(** State of the time-based exit loop: its two locals and the frame it
    writes to. *)
Record Walk : Type := mkWalk {
  in_position : bool;
  buy_date    : option Z;
  frame       : list Row
}.

Definition is_some {A : Type} (o : option A) : bool :=
  match o with Some _ => true | None => false end.

(** One iteration; [row] comes from the rows [iterrows] read when the
    loop started, the write goes to the frame. *)
Definition walk_step (st : Walk) (row : Row) : Walk :=
  if (Signal row =? 1)%Z && negb (in_position st) then
    {| in_position := true; buy_date := Some (date row); frame := frame st |}
  else if (Signal row =? -1)%Z && in_position st then
    {| in_position := false; buy_date := None; frame := frame st |}
  else if in_position st && is_some (buy_date st) then
    match buy_date st with
    | Some b =>
        let days_held := (date row - b)%Z in
        if (days_held >=? 30)%Z then
          {| in_position := false;
             buy_date := None;
             frame := loc_set_Signal (date row) (-1) (frame st) |}
        else st
    | None => st
    end
  else st.

Definition forced_exit_walk (signals : list Row) : Walk :=
  fold_left walk_step signals
    {| in_position := false; buy_date := None; frame := signals |}.

Definition generate_signals (data : list (Z * Q)) : list Row :=
  frame (forced_exit_walk (strategy_signals data)).

(** ** [TradingStrategy.analyze_stock] *)

(** [s.iloc[-1]]: the last entry of a Series.  [None] stands for the
    IndexError pandas raises on an empty one. *)
Definition iloc_last {A : Type} (s : list A) : option A :=
  nth_error s (length s - 1).

(** The strings "BUY" and "HOLD" of the result. *)
Inductive Advice : Type := ADVICE_BUY | ADVICE_HOLD.

(** The dict [analyze_stock] returns. *)
Record Analysis : Type := mkAnalysis {
  analysis_symbol : String.string;
  analysis_price  : Q;
  analysis_rsi    : option Q;
  analysis_ma20   : option Q;
  analysis_ma50   : option Q;
  analysis_signal : Advice
}.

(** [analyze_stock]; the download behind [fetch_one_stock] is a
    parameter, giving the dates and closes of the bars it returns.
    [None] is the IndexError of the first [iloc[-1]] on empty data. *)
Definition analyze_stock (fetch_one_stock : String.string -> list (Z * Q))
    (symbol : String.string) : option Analysis :=
  let data := fetch_one_stock symbol in
  let close := map snd data in
  let rsi := calculate_rsi close 14 in
  let '(ma20, ma50) := calculate_moving_averages close 20 50 in
  match iloc_last rsi with
  | None => None
  | Some latest_rsi =>
  match iloc_last ma20 with
  | None => None
  | Some latest_ma20 =>
  match iloc_last ma50 with
  | None => None
  | Some latest_ma50 =>
  match iloc_last close with
  | None => None
  | Some latest_price =>
      let signal :=
        if lt_nan latest_rsi (Some 30) && gt_nan latest_ma20 latest_ma50
        then ADVICE_BUY else ADVICE_HOLD in
      Some {| analysis_symbol := symbol;
              analysis_price := latest_price;
              analysis_rsi := latest_rsi;
              analysis_ma20 := latest_ma20;
              analysis_ma50 := latest_ma50;
              analysis_signal := signal |}
  end end end end.

(** ** [StockPredictor.prepare_features] *)

(** One bar of the downloaded frame, with the columns the features
    read. *)
Record Bar : Type := mkBar {
  bar_date : Z;
  High     : Q;
  Low      : Q;
  Close    : Q;
  Volume   : Z
}.

(** A float that may be infinite or NaN: the quotient columns of the
    features are not protected against a zero divisor.  The sign of an
    infinity plays no part below and is not kept. *)
Inductive fnum : Type :=
| Finite (q : Q)
| Infinite
| NotANumber.

(** Float division of two entries. *)
Definition fdiv (x y : option Q) : fnum :=
  match x, y with
  | Some a, Some b =>
      if Qeq_bool b 0 then
        if Qeq_bool a 0 then NotANumber else Infinite
      else Finite (a / b)
  | _, _ => NotANumber
  end.

(** [x - 1] on such a float. *)
Definition fsub1 (x : fnum) : fnum :=
  match x with
  | Finite q => Finite (q - 1)
  | Infinite => Infinite
  | NotANumber => NotANumber
  end.

(** [s.shift(1)] and [s.shift(-1)]: the previous and the next entry, NaN
    where there is none. *)
Definition shift_down (s : list Q) : list (option Q) :=
  match s with
  | [] => []
  | _ :: _ => None :: map Some (removelast s)
  end.

Definition shift_up (s : list Q) : list (option Q) :=
  match s with
  | [] => []
  | _ :: rest => map Some rest ++ [None]
  end.

(** [s.pct_change()]: [s / s.shift(1) - 1]. *)
Definition pct_change (s : list Q) : list fnum :=
  zip_with (fun x prev => fsub1 (fdiv (Some x) prev)) s (shift_down s).

(** One row of the [features] frame. *)
Record FeatureRow : Type := mkFeatureRow {
  feature_date   : Z;
  feature_RSI    : option Q;
  feature_MA20   : option Q;
  feature_MA50   : option Q;
  feature_Price  : Q;
  feature_Volume : Z;
  Price_Change   : fnum;
  High_Low_Ratio : fnum;
  MA_Ratio       : fnum;
  Next_Day_Up    : Z
}.

(** The frame as built, column by column, before [dropna]. *)
Definition features_frame (data : list Bar) : list FeatureRow :=
  let close := map Close data in
  let rsi := calculate_rsi close 14 in
  let '(ma20, ma50) := calculate_moving_averages close 20 50 in
  let price_change := pct_change close in
  let high_low_ratio :=
    zip_with (fun h l => fdiv (Some h) (Some l)) (map High data) (map Low data)
  in
  let ma_ratio := zip_with fdiv ma20 ma50 in
  let next_day_up :=
    zip_with (fun next c => if gt_nan next (Some c) then 1%Z else 0%Z)
             (shift_up close) close in
  map (fun i =>
         {| feature_date := nth i (map bar_date data) 0%Z;
            feature_RSI := nth i rsi None;
            feature_MA20 := nth i ma20 None;
            feature_MA50 := nth i ma50 None;
            feature_Price := nth i close 0;
            feature_Volume := nth i (map Volume data) 0%Z;
            Price_Change := nth i price_change NotANumber;
            High_Low_Ratio := nth i high_low_ratio NotANumber;
            MA_Ratio := nth i ma_ratio NotANumber;
            Next_Day_Up := nth i next_day_up 0%Z |})
      (seq 0 (length data)).

Definition is_nan (x : fnum) : bool :=
  match x with NotANumber => true | _ => false end.

(** A row [dropna] keeps: no NaN in any column. *)
Definition no_nan (r : FeatureRow) : bool :=
  is_some (feature_RSI r) && is_some (feature_MA20 r)
  && is_some (feature_MA50 r)
  && negb (is_nan (Price_Change r)) && negb (is_nan (High_Low_Ratio r))
  && negb (is_nan (MA_Ratio r)).

Definition dropna (frame : list FeatureRow) : list FeatureRow :=
  filter no_nan frame.

Definition prepare_features (data : list Bar) : list FeatureRow :=
  dropna (features_frame data).

(** ** [TradingLogger._safe_message] *)

(** A Python [str] is its sequence of code points, a [list Z]. *)
Fixpoint starts_with (prefix s : list Z) : bool :=
  match prefix, s with
  | [], _ => true
  | p :: prefix', c :: s' => (p =? c)%Z && starts_with prefix' s'
  | _ :: _, [] => false
  end.

(** [s.replace(old, new)] for a non-empty [old]: one scan from the left,
    replacing every occurrence that does not overlap an earlier one.
    [skip] counts the code points of a matched occurrence still to be
    passed over. *)
Fixpoint replace_from (old new : list Z) (skip : nat) (s : list Z) : list Z :=
  match s with
  | [] => []
  | c :: rest =>
      match skip with
      | S k => replace_from old new k rest
      | O =>
          if starts_with old s
          then new ++ replace_from old new (length old - 1) rest
          else c :: replace_from old new 0 rest
      end
  end.

Definition str_replace (old new s : list Z) : list Z :=
  replace_from old new 0 s.

(** The dict [replacements], in its order: a symbol and the ASCII text
    that stands for it. *)
Definition replacements : list (list Z * list Z) :=
  [ ([0x1f680], [91; 83; 84; 65; 82; 84; 93]);       (* rocket: [START] *)
    ([0x1f4ca], [91; 68; 65; 84; 65; 93]);           (* bar chart: [DATA] *)
    ([0x1f4c8], [91; 85; 80; 93]);                   (* chart up: [UP] *)
    ([0x1f4c9], [91; 68; 79; 87; 78; 93]);           (* chart down: [DOWN] *)
    ([0x1f916], [91; 77; 76; 93]);                   (* robot: [ML] *)
    ([0x1f4b0], [91; 77; 79; 78; 69; 89; 93]);       (* money bag: [MONEY] *)
    ([0x2705], [91; 79; 75; 93]);                    (* check mark: [OK] *)
    ([0x274c], [91; 69; 82; 82; 79; 82; 93]);        (* cross mark: [ERROR] *)
    ([0x26a0; 0xfe0f], [91; 87; 65; 82; 78; 93]);    (* warning sign with its
                                                        variation selector:
                                                        [WARN] *)
    ([0x1f3c6], [91; 87; 73; 78; 93]);               (* trophy: [WIN] *)
    ([0x1f4f1], [91; 77; 83; 71; 93]);               (* phone: [MSG] *)
    ([0x1f50d], [91; 83; 69; 65; 82; 67; 72; 93]);   (* magnifier: [SEARCH] *)
    ([0x20b9], [82; 115]) ]%Z.                       (* rupee sign: Rs *)

(** What a logging call may be given: a [str] or any other object. *)
Inductive Message (Obj : Type) : Type :=
| Str (s : list Z)
| NotStr (o : Obj).

Arguments Str {Obj} s.
Arguments NotStr {Obj} o.

(** The loop over [replacements.items()]. *)
Definition safe_text (table : list (list Z * list Z)) (message : list Z)
  : list Z :=
  fold_left (fun safe_message kv => str_replace (fst kv) (snd kv) safe_message)
            table message.

Definition _safe_message {Obj : Type} (message : Message Obj) : Message Obj :=
  match message with
  | Str s => Str (safe_text replacements s)
  | NotStr o => NotStr o
  end.

(** ** Vocabulary of the properties *)

(** The valuation a day starts with, and the record it leaves. *)
Definition current_value_at (st : Sim) (row : Row) : Q :=
  cash (portfolio st) + inject_Z (shares (portfolio st)) * Price row.

Definition point_at (st : Sim) (row : Row) : HistoryPoint :=
  {| point_date := date row;
     portfolio_value := current_value_at st row;
     point_price := Price row;
     point_cash := cash (portfolio st);
     point_shares := shares (portfolio st) |}.

Definition buy_cost (self : Backtester) (n : Z) (row : Row) : Q :=
  inject_Z n * Price row * (1 + transaction_cost self).

Definition sale_proceeds (self : Backtester) (st : Sim) (row : Row) : Q :=
  inject_Z (shares (portfolio st)) * Price row * (1 - transaction_cost self).

(** What one day can do: buy, sell, or leave the ledger alone. *)
Inductive day_effect (self : Backtester) (st : Sim) (row : Row) (st' : Sim)
  : Prop :=
| day_buy (n : Z) :
    Signal row = 1%Z ->
    shares (portfolio st) = 0%Z ->
    int_of_quotient (current_value_at st row * max_position_size self)
                    (Price row) = Ok n ->
    (0 < n)%Z ->
    buy_cost self n row <= cash (portfolio st) ->
    cash (portfolio st') = cash (portfolio st) - buy_cost self n row ->
    shares (portfolio st') = (shares (portfolio st) + n)%Z ->
    trades st' = trades st ++
      [ mkTrade (date row) BUY n (Price row) (buy_cost self n row)
                (current_value_at st row) ] ->
    day_effect self st row st'
| day_sell :
    Signal row = (-1)%Z ->
    (0 < shares (portfolio st))%Z ->
    cash (portfolio st') = cash (portfolio st) + sale_proceeds self st row ->
    shares (portfolio st') = 0%Z ->
    trades st' = trades st ++
      [ mkTrade (date row) SELL (shares (portfolio st)) (Price row)
                (sale_proceeds self st row) (current_value_at st row) ] ->
    day_effect self st row st'
| day_idle :
    cash (portfolio st') = cash (portfolio st) ->
    shares (portfolio st') = shares (portfolio st) ->
    trades st' = trades st ->
    day_effect self st row st'.

(** The trade list read from the left with the open quantity at hand:
    flat ([None]) admits only a Buy of a positive quantity, an open
    position of [q] shares only a Sell of exactly [q]. *)
Fixpoint alternates (open : option Z) (ts : list Trade) : Prop :=
  match ts with
  | [] => True
  | t :: rest =>
      match open with
      | None =>
          action t = BUY /\ (0 < trade_shares t)%Z /\
          alternates (Some (trade_shares t)) rest
      | Some q =>
          action t = SELL /\ trade_shares t = q /\ alternates None rest
      end
  end.

(** The quantity left open by a trade list. *)
Fixpoint position_after (open : option Z) (ts : list Trade) : option Z :=
  match ts with
  | [] => open
  | t :: rest =>
      position_after
        (match action t with BUY => Some (trade_shares t) | SELL => None end)
        rest
  end.

Definition shares_held (open : option Z) : Z :=
  match open with Some q => q | None => 0%Z end.

(** The ledger agrees with its trade list. *)
Definition ledger_matches_trades (st : Sim) : Prop :=
  alternates None (trades st) /\
  match position_after None (trades st) with
  | None => shares (portfolio st) = 0%Z
  | Some q => shares (portfolio st) = q /\ (0 < q)%Z
  end.

(** The signal the two masked assignments leave on a row. *)
Definition strategy_row (r : Row) : Row :=
  let r1 := if buy_condition r then set_Signal 1 r else r in
  if sell_condition r1 then set_Signal (-1) r1 else r1.

(** A frame row after the walk: as it was, or turned into a Sell. *)
Definition overridden (r r' : Row) : Prop :=
  r' = r \/ r' = set_Signal (-1) r.

(** The walk on a frame that holds the current row alone. *)
Definition walk_row (ip : bool) (bd : option Z) (r : Row) : Walk :=
  walk_step (mkWalk ip bd [r]) r.

(** The rows the walk leaves, when every label names one row. *)
Fixpoint walk_rows (ip : bool) (bd : option Z) (rows : list Row) : list Row :=
  match rows with
  | [] => []
  | r :: rest =>
      let st := walk_row ip bd r in
      frame st ++ walk_rows (in_position st) (buy_date st) rest
  end.

(** The trade list ends with [tb]. *)
Definition open_trade (st : Sim) (tb : Trade) : Prop :=
  exists earlier, trades st = earlier ++ [tb].

(** Among [ts] there is a Sell of the quantity of [tb], dated after it
    and no later than any day of [seen] that is 30 days or more after
    it. *)
Definition closed_by (seen : list Z) (ts : list Trade) (tb : Trade) : Prop :=
  exists t,
    In t ts /\ action t = SELL /\ trade_shares t = trade_shares tb /\
    (trade_date tb < trade_date t)%Z /\
    forall d, In d seen -> (30 <= d - trade_date tb)%Z ->
              (trade_date t <= d)%Z.

(** What ties the walk's locals to the simulator's state after the days
    [seen]. *)
Record joint (seen : list Z) (ip : bool) (bd : option Z) (st : Sim) : Prop := {
  j_trade_dates : forall t, In t (trades st) -> In (trade_date t) seen;
  j_shares : (0 <= shares (portfolio st))%Z;
  j_walk : ip = true -> exists e, bd = Some e /\ In e seen;
  j_open :
    (0 < shares (portfolio st))%Z ->
    exists tb e,
      open_trade st tb /\ action tb = BUY /\
      trade_shares tb = shares (portfolio st) /\
      ip = true /\ bd = Some e /\ (e <= trade_date tb)%Z /\
      forall d, In d seen -> (d - trade_date tb < 30)%Z;
  j_closed :
    forall tb, In tb (trades st) -> action tb = BUY ->
      ((0 < shares (portfolio st))%Z /\ open_trade st tb) \/
      closed_by seen (trades st) tb
}.

(** Adjacent dates increase. *)
Fixpoint ascending (l : list Z) : bool :=
  match l with
  | a :: (b :: _) as rest => (a <? b)%Z && ascending rest
  | _ => true
  end.

(** An entry that is NaN or a non-negative number. *)
Definition nonneg_nan (x : option Q) : Prop :=
  forall q, x = Some q -> 0 <= q.

(** ** Sample series *)

(** Day numbers of trading days, Monday to Friday; day 0 is a Monday. *)
Definition weekday (i : nat) : Z :=
  (7 * (Z.of_nat i / 5) + Z.of_nat i mod 5)%Z.

(** [n] trading days of closes: 100, 110, ... up to 690 on the 60th day,
    then one less each day. *)
Definition rise_then_fade (n : nat) : list (Z * Q) :=
  map (fun i => (weekday i,
                 if (i <? 60)%nat then inject_Z (100 + 10 * Z.of_nat i)
                 else inject_Z (690 - (Z.of_nat i - 59))))
      (seq 0 n).

(** Two days: a Buy at 100, then a Sell at 110. *)
Definition scenario : list Row :=
  [ mkRow 1 100 None None None 1%Z; mkRow 2 110 None None None (-1)%Z ].

(** A series shorter than every indicator window. *)
Definition three_days : list (Z * Q) := [ (0%Z, 100); (1%Z, 101); (2%Z, 102) ].

(** A series that rises for 60 trading days and then fades a little each
    day, up to the Monday of day 133.  The strategy buys on day 101 and
    no Sell condition holds after that day. *)
Definition fade : list (Z * Q) := rise_then_fade 96.

(** The same rise, then a fall of one a day down to 668 and a flat close
    from then on.  The strategy buys on day 101; when the time-based exit
    is due on day 133 the close has not moved for fourteen days, so the
    RSI of that row is undefined. *)
Definition rise_fall_flat (n : nat) : list (Z * Q) :=
  map (fun i => (weekday i,
                 if (i <? 60)%nat then inject_Z (100 + 10 * Z.of_nat i)
                 else if (i <? 82)%nat then inject_Z (690 - (Z.of_nat i - 59))
                 else 668))
      (seq 0 n).

(** ** Vocabulary of the further properties *)

(** Each close is at least the close before it. *)
Definition never_falls (prices : list Q) : Prop :=
  forall i a b,
    nth_error prices i = Some a -> nth_error prices (S i) = Some b -> a <= b.

(** An entry that is NaN or zero. *)
Definition zero_nan (x : option Q) : Prop :=
  forall q, x = Some q -> q == 0.

(** The sum of a list of numbers. *)
Definition Qsum (xs : list Q) : Q := fold_right Qplus 0 xs.

(** Adjacent closes do not fall. *)
Fixpoint never_fallsb (prices : list Q) : bool :=
  match prices with
  | a :: (b :: _) as rest => Qle_bool a b && never_fallsb rest
  | _ => true
  end.

(** Bars around the closes of [rise_then_fade]. *)
Definition sample_bars (n : nat) : list Bar :=
  map (fun x => mkBar (fst x) (snd x + 1) (snd x - 1) (snd x) 1000)
      (rise_then_fade n).

(** No [a] is immediately followed by [b]. *)
Fixpoint no_adjacent (a b : Z) (s : list Z) : Prop :=
  match s with
  | c :: (d :: _) as rest => ~ (c = a /\ d = b) /\ no_adjacent a b rest
  | _ => True
  end.

(** The twelve symbols of the table that are a single code point. *)
Definition single_symbols : list Z :=
  [0x1f680; 0x1f4ca; 0x1f4c8; 0x1f4c9; 0x1f916; 0x1f4b0; 0x2705; 0x274c;
   0x1f3c6; 0x1f4f1; 0x1f50d; 0x20b9]%Z.

(** * Properties *)

(** ** Running the simulator *)

Lemma Qlt_bool_iff (x y : Q) : Qlt_bool x y = true <-> x < y.
Proof.
  unfold Qlt_bool. rewrite negb_true_iff.
  split; intro H.
  - apply Qnot_le_lt. intro Hle. apply Qle_bool_iff in Hle. congruence.
  - destruct (Qle_bool y x) eqn:E; [|reflexivity].
    apply Qle_bool_iff in E. exfalso. apply (Qlt_not_le _ _ H E).
Qed.

Lemma bind_Ok_inv {A B : Type} (m : result A) (k : A -> result B) (b : B) :
  (x <- m ;; k x) = Ok b -> exists a, m = Ok a /\ k a = Ok b.
Proof.
  destruct m as [a|e]; simpl; intro H; [eauto | discriminate].
Qed.

Lemma simulate_from_app self st l1 l2 :
  simulate_from self st (l1 ++ l2) =
  (st1 <- simulate_from self st l1 ;; simulate_from self st1 l2).
Proof.
  revert st. induction l1 as [|r l1 IH]; intros st; simpl; [reflexivity|].
  destruct (simulate_day self st r) as [st'|e]; simpl; [apply IH | reflexivity].
Qed.

Lemma simulate_from_prefix self st l1 l2 final :
  simulate_from self st (l1 ++ l2) = Ok final ->
  exists st1, simulate_from self st l1 = Ok st1 /\
              simulate_from self st1 l2 = Ok final.
Proof.
  rewrite simulate_from_app. apply bind_Ok_inv.
Qed.

Lemma simulate_trading_Ok self signals ts h p :
  simulate_trading self signals = Ok (ts, h, p) ->
  exists final, simulate_from self (sim_start self) signals = Ok final /\
                trades final = ts /\ portfolio_history final = h /\
                portfolio final = p.
Proof.
  unfold simulate_trading. intro H.
  apply bind_Ok_inv in H. destruct H as [final [H1 H2]].
  exists final. inversion H2. auto.
Qed.

Lemma simulate_day_inv self st row st' :
  simulate_day self st row = Ok st' ->
  portfolio_history st' = portfolio_history st ++ [point_at st row] /\
  total_value (portfolio st') = current_value_at st row /\
  day_effect self st row st'.
Proof.
  unfold simulate_day. cbv zeta. simpl.
  destruct ((Signal row =? 1)%Z && (shares (portfolio st) =? 0)%Z) eqn:Eb.
  - apply andb_true_iff in Eb. destruct Eb as [Es Eh].
    apply Z.eqb_eq in Es. apply Z.eqb_eq in Eh.
    intro H. apply bind_Ok_inv in H. destruct H as [n [Hn H]].
    destruct (n >? 0)%Z eqn:En.
    + destruct (Qle_bool _ _) eqn:Ec in H; inversion H; subst; clear H; simpl;
        repeat split; try reflexivity.
      * apply Qle_bool_iff in Ec.
        eapply day_buy with (n := n); eauto; lia.
      * apply day_idle; reflexivity.
    + inversion H; subst; clear H; simpl. repeat split.
      apply day_idle; reflexivity.
  - destruct ((Signal row =? -1)%Z && (shares (portfolio st) >? 0)%Z) eqn:Es;
      intro H; inversion H; subst; clear H; simpl; repeat split.
    + apply andb_true_iff in Es. destruct Es as [Es Eh].
      apply Z.eqb_eq in Es. apply day_sell; simpl; auto; lia.
    + apply day_idle; reflexivity.
Qed.

(** A property kept by every day holds after any number of days. *)
Lemma simulate_from_invariant self (P : Sim -> Prop) :
  (forall st row st', P st -> simulate_day self st row = Ok st' -> P st') ->
  forall signals st final,
    P st -> simulate_from self st signals = Ok final -> P final.
Proof.
  intros Hstep signals. induction signals as [|r rest IH]; intros st final HP H.
  - simpl in H. inversion H. subst. exact HP.
  - simpl in H. apply bind_Ok_inv in H. destruct H as [st' [Hd Hr]].
    eapply IH; [|exact Hr]. eapply Hstep; eauto.
Qed.

Lemma history_length self signals st final :
  simulate_from self st signals = Ok final ->
  length (portfolio_history final) =
  (length (portfolio_history st) + length signals)%nat.
Proof.
  revert st. induction signals as [|r rest IH]; intros st H; simpl in *.
  - inversion H. lia.
  - apply bind_Ok_inv in H. destruct H as [st' [Hd Hr]].
    apply IH in Hr. apply simulate_day_inv in Hd. destruct Hd as [Hh _].
    rewrite Hr, Hh, length_app. simpl. lia.
Qed.

(** The history only grows at its end. *)
Lemma history_extends self signals st final :
  simulate_from self st signals = Ok final ->
  exists more, portfolio_history final = portfolio_history st ++ more.
Proof.
  revert st. induction signals as [|r rest IH]; intros st H; simpl in *.
  - inversion H. exists []. now rewrite app_nil_r.
  - apply bind_Ok_inv in H. destruct H as [st' [Hd Hr]].
    apply IH in Hr. destruct Hr as [more Hm].
    apply simulate_day_inv in Hd. destruct Hd as [Hh _].
    exists (point_at st r :: more). rewrite Hm, Hh, <- app_assoc. reflexivity.
Qed.

Lemma simulate_day_total self st row :
  ~ Price row == 0 -> exists st', simulate_day self st row = Ok st'.
Proof.
  intro Hp. unfold simulate_day, int_of_quotient. cbv zeta. simpl.
  destruct (Qeq_bool (Price row) 0) eqn:E.
  { apply Qeq_bool_iff in E. contradiction. }
  destruct (_ && _); simpl.
  - destruct (_ >? 0)%Z; [destruct (Qle_bool _ _)|]; eauto.
  - destruct (_ && _); eauto.
Qed.

(** A day raises exactly on a Buy signal met flat at a zero price, where
    [int] is given an infinite or NaN quotient. *)
Lemma simulate_day_raises self st row e :
  simulate_day self st row = Raise e <->
  Signal row = 1%Z /\ shares (portfolio st) = 0%Z /\ Price row == 0 /\
  e = (if Qeq_bool (current_value_at st row * max_position_size self) 0
       then ValueError else OverflowError).
Proof.
  unfold simulate_day, int_of_quotient, current_value_at. cbv zeta. simpl.
  destruct (Signal row =? 1)%Z eqn:E1; simpl.
  - apply Z.eqb_eq in E1.
    destruct (shares (portfolio st) =? 0)%Z eqn:E2; simpl.
    + apply Z.eqb_eq in E2.
      destruct (Qeq_bool (Price row) 0) eqn:E3.
      * apply Qeq_bool_iff in E3.
        destruct (Qeq_bool _ 0); simpl; split.
        -- intro H. inversion H. auto.
        -- intros [_ [_ [_ H]]]. subst e. reflexivity.
        -- intro H. inversion H. auto.
        -- intros [_ [_ [_ H]]]. subst e. reflexivity.
      * assert (Hn : ~ Price row == 0).
        { intro H. apply Qeq_bool_iff in H. congruence. }
        simpl. destruct (_ >? 0)%Z; [destruct (Qle_bool _ _)|];
          (split; [discriminate | intros [_ [_ [H _]]]; contradiction]).
    + apply Z.eqb_neq in E2.
      destruct (_ && _);
        (split; [discriminate | intros [_ [H _]]; contradiction]).
  - apply Z.eqb_neq in E1.
    destruct (_ && _);
      (split; [discriminate | intros [H _]; contradiction]).
Qed.

(** With no zero price the loop never raises. *)
Lemma simulate_from_total self signals : forall st,
  Forall (fun r => ~ Price r == 0) signals ->
  exists st', simulate_from self st signals = Ok st'.
Proof.
  induction signals as [|r rest IH]; intros st Hall; simpl.
  - eauto.
  - inversion Hall as [|? ? Hr Hrest]; subst.
    destruct (simulate_day_total self st r Hr) as [st1 Hd].
    rewrite Hd. simpl. apply IH. exact Hrest.
Qed.

Lemma simulate_trading_total self signals :
  Forall (fun r => ~ Price r == 0) signals ->
  exists ts h p, simulate_trading self signals = Ok (ts, h, p).
Proof.
  intro Hall. unfold simulate_trading.
  destruct (simulate_from_total self signals (sim_start self) Hall) as [st H].
  rewrite H. simpl. eauto.
Qed.

(** A day whose signal is Hold (or any value but 1 and -1). *)
Lemma simulate_day_hold self st row :
  Signal row <> 1%Z -> Signal row <> (-1)%Z ->
  simulate_day self st row =
  Ok {| portfolio := {| cash := cash (portfolio st);
                        shares := shares (portfolio st);
                        total_value := current_value_at st row |};
        trades := trades st;
        portfolio_history := portfolio_history st ++ [point_at st row] |}.
Proof.
  intros H1 H2. unfold simulate_day. cbv zeta. simpl.
  apply Z.eqb_neq in H1. apply Z.eqb_neq in H2. rewrite H1, H2. reflexivity.
Qed.

(** ** The RSI quotient *)

Lemma sum_nan_nonneg xs s :
  Forall nonneg_nan xs -> sum_nan xs = Some s -> 0 <= s.
Proof.
  intro H. revert s. induction H as [|x xs Hx _ IH]; intros s Hs; simpl in Hs.
  - inversion Hs. lra.
  - destruct x as [q|]; [|discriminate].
    destruct (sum_nan xs) as [s0|]; [|discriminate].
    inversion Hs. specialize (IH s0 eq_refl). specialize (Hx q eq_refl). lra.
Qed.

Lemma rolling_mean_nonneg window s :
  Forall nonneg_nan s -> Forall nonneg_nan (rolling_mean window s).
Proof.
  intro H. apply Forall_forall. intros x Hx. unfold rolling_mean in Hx.
  apply in_map_iff in Hx. destruct Hx as [i [Hx _]].
  destruct (S i <? window)%nat; [subst x; intros q E; discriminate|].
  unfold mean_nan in Hx.
  destruct (window =? 0)%nat eqn:W; [subst x; intros q E; discriminate|].
  apply Nat.eqb_neq in W.
  destruct (sum_nan _) as [t|] eqn:Es; subst x; intros q E; [|discriminate].
  inversion E; subst q; clear E.
  apply sum_nan_nonneg in Es.
  - apply Qle_shift_div_l; [|lra].
    change 0 with (inject_Z 0). rewrite <- Zlt_Qlt. lia.
  - rewrite Forall_forall in *. intros y Hy. apply H.
    rewrite <- (firstn_skipn (S i - window) s). apply in_or_app. right.
    rewrite <- (firstn_skipn window (skipn (S i - window) s)).
    apply in_or_app. left. exact Hy.
Qed.

Lemma gains_nonneg delta :
  Forall nonneg_nan (where_ (fun d => gt_nan d (Some 0)) 0 delta).
Proof.
  apply Forall_forall. intros x Hx. unfold where_ in Hx.
  apply in_map_iff in Hx. destruct Hx as [d [Hx _]].
  destruct (gt_nan d (Some 0)) eqn:E; subst x; intros q Hq.
  - subst d. simpl in E. apply Qlt_bool_iff in E. lra.
  - inversion Hq. lra.
Qed.

Lemma losses_nonneg delta :
  Forall nonneg_nan
    (map (option_map Qopp) (where_ (fun d => lt_nan d (Some 0)) 0 delta)).
Proof.
  apply Forall_forall. intros x Hx. unfold where_ in Hx. rewrite map_map in Hx.
  apply in_map_iff in Hx. destruct Hx as [d [Hx _]].
  destruct (lt_nan d (Some 0)) eqn:E; subst x; intros q Hq.
  - destruct d as [v|]; [|discriminate]. simpl in E, Hq.
    apply Qlt_bool_iff in E. inversion Hq. lra.
  - simpl in Hq. inversion Hq. lra.
Qed.

(** The case [rsi_entry] leaves to exact division never has a zero
    denominator: with a non-zero [loss], [1 + gain / loss] is positive. *)
Lemma rsi_denominator_positive prices period i g l :
  nth_error
    (rolling_mean period (where_ (fun d => gt_nan d (Some 0)) 0 (diff prices)))
    i = Some (Some g) ->
  nth_error
    (rolling_mean period
       (map (option_map Qopp)
            (where_ (fun d => lt_nan d (Some 0)) 0 (diff prices))))
    i = Some (Some l) ->
  ~ l == 0 -> 0 < 1 + g / l.
Proof.
  intros Hg Hl Hnz.
  apply nth_error_In in Hg, Hl.
  pose proof (rolling_mean_nonneg period _ (gains_nonneg (diff prices))) as Fg.
  pose proof (rolling_mean_nonneg period _ (losses_nonneg (diff prices))) as Fl.
  rewrite Forall_forall in Fg, Fl.
  specialize (Fg _ Hg g eq_refl). specialize (Fl _ Hl l eq_refl).
  assert (Hpos : 0 < l).
  { destruct (Qlt_le_dec 0 l) as [H|H]; [exact H|].
    exfalso. apply Hnz. lra. }
  assert (0 <= g / l) by (apply Qle_shift_div_l; [exact Hpos | lra]).
  lra.
Qed.

(** ** C1: the two-day scenario *)

(** C1, evaluated in binary64.  With initial capital 100000, day 1 (price
    100, Buy) buys 300 shares; the cost recorded is the double
    30029.999999999996 and the cash left is 69970.  Day 2 (price 110,
    Sell) sells them for 32967.  The ledger returned has cash 102937 and
    no shares, as the scenario says, but its [total_value] is 102970: the
    valuation made at the start of day 2, 69970 + 300 * 110, which the
    Sell does not refresh.  The returned [total_value] is therefore not
    the worth of the returned cash and shares. *)
Theorem C1_two_day_scenario :
  let final := Binary64.mkPortfolio 102937 0 102970 in
  Binary64.simulate_trading (Binary64.Backtester_init 100000) Binary64.scenario
  = Ok ([ Binary64.mkTrade 1 BUY 300 100 30029.999999999996 100000;
          Binary64.mkTrade 2 SELL 300 110 32967 102970 ],
        [ Binary64.mkPoint 1 100000 100 100000 0;
          Binary64.mkPoint 2 102970 110 69970 300 ],
        final)
  /\
  (Binary64.total_value final
   =? Binary64.cash final
      + Binary64.float_of_int (Binary64.shares final) * 110)%float = false.
Proof.
  split; vm_compute; reflexivity.
Qed.

(** ** C2: valuation first, then the trade *)

(** C2.  A run over a series without a zero price returns; and on every
    day of every run that returns, the simulator values the ledger left
    by the previous day at the day's price, appends exactly one history
    point carrying that value (and the old cash and shares), and only then
    trades: a Buy executed that day is sized from that same value, the
    ledger's [total_value] stays at it, and the point is the day's entry
    of the returned history. *)
Theorem C2_valuation_precedes_trade :
  forall self pre row post,
    (Forall (fun r => ~ Price r == 0) (pre ++ row :: post) ->
     exists ts h p, simulate_trading self (pre ++ row :: post) = Ok (ts, h, p))
    /\
    forall ts h p,
    simulate_trading self (pre ++ row :: post) = Ok (ts, h, p) ->
    exists st st',
      simulate_from self (sim_start self) pre = Ok st /\
      simulate_day self st row = Ok st' /\
      portfolio_history st' = portfolio_history st ++ [point_at st row] /\
      portfolio_value (point_at st row) =
        cash (portfolio st) + inject_Z (shares (portfolio st)) * Price row /\
      total_value (portfolio st') = portfolio_value (point_at st row) /\
      nth_error h (length pre) = Some (point_at st row) /\
      length h = length (pre ++ row :: post) /\
      (forall t, trades st' = trades st ++ [t] -> action t = BUY ->
         trade_portfolio_value t = portfolio_value (point_at st row) /\
         int_of_quotient
           (portfolio_value (point_at st row) * max_position_size self)
           (Price row) = Ok (trade_shares t)).
Proof.
  intros self pre row post. split; [apply simulate_trading_total|].
  intros ts h p H.
  apply simulate_trading_Ok in H. destruct H as [final [Hrun [_ [Hh _]]]].
  pose proof (history_length _ _ _ _ Hrun) as Hlen.
  destruct (simulate_from_prefix _ _ _ _ _ Hrun) as [st [Hpre Hrest]].
  simpl in Hrest. apply bind_Ok_inv in Hrest. destruct Hrest as [st' [Hday Hpost]].
  exists st, st'. split; [exact Hpre|]. split; [exact Hday|].
  destruct (simulate_day_inv _ _ _ _ Hday) as [Hhist [Hval Heff]].
  split; [exact Hhist|]. split; [reflexivity|]. split; [exact Hval|].
  split; [|split].
  - destruct (history_extends _ _ _ _ Hpost) as [more Hm].
    pose proof (history_length _ _ _ _ Hpre) as Hl. simpl in Hl.
    rewrite <- Hh, Hm, Hhist, <- app_assoc. simpl.
    rewrite nth_error_app2 by lia. rewrite Hl, Nat.sub_diag. reflexivity.
  - rewrite <- Hh, Hlen. reflexivity.
  - intros t Ht Ha. destruct Heff as [n _ _ Hn _ _ _ _ Htr| _ _ _ _ Htr | _ _ Htr].
    + rewrite Htr in Ht. apply app_inv_head in Ht. inversion Ht; subst; clear Ht.
      simpl. split; [reflexivity | exact Hn].
    + rewrite Htr in Ht. apply app_inv_head in Ht. inversion Ht; subst.
      discriminate.
    + exfalso. apply (f_equal (@length Trade)) in Ht.
      rewrite Htr, length_app in Ht. simpl in Ht. lia.
Qed.

Lemma C2_valuation_precedes_trade_witness :
  exists st st',
    simulate_from (Backtester_init 100000) (sim_start (Backtester_init 100000)) []
      = Ok st /\
    simulate_day (Backtester_init 100000) st (mkRow 1 100 None None None 1%Z)
      = Ok st' /\
    nth_error (portfolio_history st') 0 =
      Some (point_at st (mkRow 1 100 None None None 1%Z)).
Proof.
  destruct (C2_valuation_precedes_trade (Backtester_init 100000) []
              (mkRow 1 100 None None None 1%Z)
              [mkRow 2 110 None None None (-1)%Z]) as [Htotal Hday].
  destruct Htotal as [ts [h [p Hrun]]].
  { repeat constructor; vm_compute; discriminate. }
  destruct (Hday ts h p Hrun) as [st [st' [H1 [H2 [H3 _]]]]].
  - exists st, st'. split; [exact H1|]. split; [exact H2|].
    rewrite H3. simpl in H1. inversion H1. reflexivity.
Defined.

(** ** C3: the ledger never goes negative *)

Lemma inject_Z_nonneg (z : Z) : (0 <= z)%Z -> 0 <= inject_Z z.
Proof.
  intro H. change 0 with (inject_Z 0). rewrite <- Zle_Qle. exact H.
Qed.

Lemma simulate_day_nonneg cap st row st' :
  0 < Price row ->
  0 <= cash (portfolio st) -> (0 <= shares (portfolio st))%Z ->
  simulate_day (Backtester_init cap) st row = Ok st' ->
  0 <= cash (portfolio st') /\ (0 <= shares (portfolio st'))%Z.
Proof.
  intros Hp Hc Hs Hday.
  destruct (simulate_day_inv _ _ _ _ Hday) as [_ [_ Heff]].
  destruct Heff as [n _ _ _ Hn Hcost Hc' Hs' _ | _ Hpos Hc' Hs' _ | Hc' Hs' _].
  - rewrite Hc', Hs'. split; [lra | lia].
  - rewrite Hc', Hs'. split; [|lia].
    unfold sale_proceeds. simpl.
    assert (0 <= inject_Z (shares (portfolio st)) * Price row).
    { apply Qmult_le_0_compat; [apply inject_Z_nonneg; lia | lra]. }
    assert (0 <= inject_Z (shares (portfolio st)) * Price row * (1 - (1 # 1000))).
    { apply Qmult_le_0_compat; [assumption | lra]. }
    lra.
  - rewrite Hc', Hs'. split; assumption.
Qed.

(** C3.  With a non-negative initial capital and strictly positive
    prices, the simulation of every prefix of the series (every day
    reached) ends normally in a ledger with [cash >= 0] and
    [shares >= 0]. *)
Theorem C3_ledger_nonnegative :
  forall cap pre post,
    0 <= cap ->
    Forall (fun r => 0 < Price r) (pre ++ post) ->
    exists st,
      simulate_from (Backtester_init cap) (sim_start (Backtester_init cap)) pre
        = Ok st /\
      0 <= cash (portfolio st) /\ (0 <= shares (portfolio st))%Z.
Proof.
  intros cap pre post Hcap Hall.
  apply Forall_app in Hall. destruct Hall as [Hpre _].
  assert (G : forall st,
             0 <= cash (portfolio st) -> (0 <= shares (portfolio st))%Z ->
             exists st', simulate_from (Backtester_init cap) st pre = Ok st' /\
                         0 <= cash (portfolio st') /\
                         (0 <= shares (portfolio st'))%Z).
  { induction Hpre as [|r rest Hr _ IH]; intros st Hc Hs.
    - exists st. simpl. auto.
    - destruct (simulate_day_total (Backtester_init cap) st r) as [st1 Hd].
      { intro E. rewrite E in Hr. apply (Qlt_irrefl 0 Hr). }
      destruct (simulate_day_nonneg _ _ _ _ Hr Hc Hs Hd) as [Hc1 Hs1].
      destruct (IH st1 Hc1 Hs1) as [st' [Hrun Hinv]].
      exists st'. simpl. rewrite Hd. simpl. auto. }
  apply G; simpl; [exact Hcap | lia].
Qed.

Lemma C3_ledger_nonnegative_witness :
  exists st,
    simulate_from (Backtester_init 100000) (sim_start (Backtester_init 100000))
      scenario = Ok st /\
    0 <= cash (portfolio st) /\ (0 <= shares (portfolio st))%Z.
Proof.
  apply (C3_ledger_nonnegative 100000 scenario []).
  - vm_compute. discriminate.
  - repeat constructor.
Defined.

(** ** C9: a series of Holds *)

(** C9.  When every signal is Hold the run ends normally with no trade,
    the cash untouched, no shares, and a total value equal to the initial
    capital, whatever the prices. *)
Theorem C9_all_hold :
  forall self signals,
    Forall (fun r => Signal r = 0%Z) signals ->
    exists h p,
      simulate_trading self signals = Ok ([], h, p) /\
      total_value p == initial_capital self /\
      cash p = initial_capital self /\ shares p = 0%Z.
Proof.
  intros self signals Hall.
  assert (G : forall st,
             trades st = [] -> shares (portfolio st) = 0%Z ->
             cash (portfolio st) = initial_capital self ->
             total_value (portfolio st) == initial_capital self ->
             exists st', simulate_from self st signals = Ok st' /\
                         trades st' = [] /\ shares (portfolio st') = 0%Z /\
                         cash (portfolio st') = initial_capital self /\
                         total_value (portfolio st') == initial_capital self).
  { induction Hall as [|r rest Hr _ IH]; intros st Ht Hs Hc Hv.
    - exists st. simpl. auto.
    - simpl. rewrite simulate_day_hold by (rewrite Hr; discriminate). simpl.
      apply IH; simpl; auto.
      unfold current_value_at. rewrite Hs, Hc. unfold inject_Z. ring. }
  destruct (G (sim_start self)) as [st' [Hrun [Ht [Hs [Hc Hv]]]]];
    try reflexivity.
  exists (portfolio_history st'), (portfolio st').
  unfold simulate_trading. rewrite Hrun. simpl. rewrite Ht. auto.
Qed.

Lemma C9_all_hold_witness :
  exists h p,
    simulate_trading (Backtester_init 100000)
      [mkRow 1 100 None None None 0%Z; mkRow 2 250 None None None 0%Z]
      = Ok ([], h, p) /\
    total_value p == 100000.
Proof.
  destruct (C9_all_hold (Backtester_init 100000)
              [mkRow 1 100 None None None 0%Z; mkRow 2 250 None None None 0%Z])
    as [h [p [H [Hv _]]]].
  - repeat constructor.
  - exists h, p. split; [exact H | exact Hv].
Defined.

(** ** C7: buys and sells alternate *)

Lemma alternates_snoc open ts t :
  alternates open (ts ++ [t]) <->
  alternates open ts /\ alternates (position_after open ts) [t].
Proof.
  revert open. induction ts as [|u ts IH]; intros open; simpl.
  - destruct open; tauto.
  - destruct open as [q|].
    + rewrite (IH None). split.
      * intros [Ha [Hq [H1 H2]]]. rewrite Ha. tauto.
      * intros [[Ha [Hq H1]] H2]. rewrite Ha in H2. tauto.
    + rewrite (IH (Some (trade_shares u))). split.
      * intros [Ha [Hq [H1 H2]]]. rewrite Ha. tauto.
      * intros [[Ha [Hq H1]] H2]. rewrite Ha in H2. tauto.
Qed.

Lemma position_after_snoc open ts t :
  position_after open (ts ++ [t]) =
  match action t with BUY => Some (trade_shares t) | SELL => None end.
Proof.
  revert open. induction ts as [|u ts IH]; intros open; simpl; [reflexivity|].
  apply IH.
Qed.

Lemma simulate_day_matches self st row st' :
  ledger_matches_trades st ->
  simulate_day self st row = Ok st' ->
  ledger_matches_trades st'.
Proof.
  intros [Halt Hpos] Hday.
  destruct (simulate_day_inv _ _ _ _ Hday) as [_ [_ Heff]].
  unfold ledger_matches_trades.
  destruct Heff as [n _ Hflat _ Hn _ _ Hs' Htr | _ Hheld _ Hs' Htr | _ Hs' Htr].
  - rewrite Htr, position_after_snoc, alternates_snoc. simpl.
    destruct (position_after None (trades st)) as [q|].
    + destruct Hpos as [Hq Hq0]. lia.
    + rewrite Hs', Hflat. repeat split; auto.
  - rewrite Htr, position_after_snoc, alternates_snoc. simpl.
    destruct (position_after None (trades st)) as [q|].
    + destruct Hpos as [Hq Hq0]. repeat split; auto.
    + lia.
  - rewrite Htr, Hs'. auto.
Qed.

(** C7.  The simulation of any number of days of a series without a
    zero price ends normally; and whenever it does, the trades recorded
    so far alternate Buy, Sell, Buy, ... from a Buy, each Buy of a
    positive quantity and each Sell of exactly the quantity of the Buy
    before it, and the shares held are that quantity while the last trade
    is a Buy and 0 otherwise. *)
Theorem C7_trades_alternate :
  forall self signals days,
    (Forall (fun r => ~ Price r == 0) signals ->
     exists st,
       simulate_from self (sim_start self) (firstn days signals) = Ok st) /\
    forall st,
    simulate_from self (sim_start self) (firstn days signals) = Ok st ->
    alternates None (trades st) /\
    shares (portfolio st) = shares_held (position_after None (trades st)).
Proof.
  intros self signals days. split.
  { intro Hall. apply simulate_from_total.
    rewrite <- (firstn_skipn days signals) in Hall.
    apply Forall_app in Hall. tauto. }
  intros st Hrun.
  assert (H : ledger_matches_trades st).
  { apply (simulate_from_invariant self ledger_matches_trades)
      with (signals := firstn days signals) (st := sim_start self).
    - intros. eapply simulate_day_matches; eauto.
    - split; simpl; auto.
    - exact Hrun. }
  destruct H as [Halt Hpos]. split; [exact Halt|].
  destruct (position_after None (trades st)); simpl; tauto.
Qed.

Lemma C7_trades_alternate_witness :
  exists st,
    simulate_from (Backtester_init 100000) (sim_start (Backtester_init 100000))
      (firstn 1 scenario) = Ok st /\
    alternates None (trades st) /\ shares (portfolio st) = 300%Z.
Proof.
  destruct (C7_trades_alternate (Backtester_init 100000) scenario 1)
    as [Htotal Hprop].
  destruct Htotal as [st Hrun].
  { repeat constructor; vm_compute; discriminate. }
  exists st. split; [exact Hrun|].
  destruct (Hprop st Hrun) as [Ha Hs]. split; [exact Ha|].
  rewrite Hs. vm_compute in Hrun. inversion Hrun. reflexivity.
Defined.

(** ** C8: a Buy that cannot be filled is dropped *)

Lemma int_of_floor (x : Q) : 0 <= x -> int_of x = Qfloor x.
Proof.
  destruct x as [n d]. unfold Qle, int_of, Qfloor. simpl. intro H.
  apply Z.quot_div_nonneg; lia.
Qed.

(** C8.  On a Buy day in the flat state, when the share count
    [int(investable / price)] is zero or the cost of that many shares
    exceeds the cash, the day ends normally, records no trade, leaves cash
    and shares as they were, and is indistinguishable from a Hold day:
    nothing of the signal is kept for later. *)
Theorem C8_unfilled_buy_is_dropped :
  forall self st row,
    Signal row = 1%Z ->
    shares (portfolio st) = 0%Z ->
    ~ Price row == 0 ->
    (int_of (current_value_at st row * max_position_size self / Price row)
       = 0%Z \/
     cash (portfolio st) <
       buy_cost self
         (int_of (current_value_at st row * max_position_size self / Price row))
         row) ->
    exists st',
      simulate_day self st row = Ok st' /\
      trades st' = trades st /\
      cash (portfolio st') = cash (portfolio st) /\
      shares (portfolio st') = 0%Z /\
      simulate_day self st (set_Signal 0 row) = Ok st'.
Proof.
  intros self st row Hsig Hflat Hp Hcase.
  rewrite (simulate_day_hold self st (set_Signal 0 row))
    by (simpl; discriminate).
  unfold simulate_day, int_of_quotient. cbv zeta. simpl.
  rewrite Hsig, Hflat. simpl.
  destruct (Qeq_bool (Price row) 0) eqn:E.
  { apply Qeq_bool_iff in E. contradiction. }
  simpl. fold (current_value_at st row).
  unfold current_value_at in *. rewrite Hflat in *.
  set (n := int_of _) in *.
  assert (Hidle :
    (if (n >? 0)%Z
     then if Qle_bool (inject_Z n * Price row * (1 + transaction_cost self))
                      (cash (portfolio st))
          then false else true
     else true) = true).
  { destruct Hcase as [H0 | Hc].
    - rewrite H0. reflexivity.
    - destruct (n >? 0)%Z; [|reflexivity].
      destruct (Qle_bool _ _) eqn:El; [|reflexivity].
      apply Qle_bool_iff in El. unfold buy_cost in Hc. lra. }
  unfold point_at, current_value_at. rewrite Hflat.
  destruct (n >? 0)%Z.
  - destruct (Qle_bool _ _); [discriminate|].
    eexists. split; [reflexivity|]. simpl. auto.
  - eexists. split; [reflexivity|]. simpl. auto.
Qed.

Lemma C8_unfilled_buy_is_dropped_witness :
  exists st',
    simulate_day (Backtester_init 100) (sim_start (Backtester_init 100))
      (mkRow 1 1000 None None None 1%Z) = Ok st' /\
    trades st' = [] /\ shares (portfolio st') = 0%Z.
Proof.
  destruct (C8_unfilled_buy_is_dropped (Backtester_init 100)
              (sim_start (Backtester_init 100))
              (mkRow 1 1000 None None None 1%Z))
    as [st' [H [Ht [_ [Hs _]]]]].
  - reflexivity.
  - reflexivity.
  - vm_compute. discriminate.
  - left. vm_compute. reflexivity.
  - exists st'. auto.
Defined.

(** ** C5: the strategy rule *)

Lemma make_frame_Signal data rsi ma20 ma50 r :
  In r (make_frame data rsi ma20 ma50) -> Signal r = 0%Z.
Proof.
  revert rsi ma20 ma50.
  induction data as [|[d c] data IH]; intros rsi ma20 ma50 H; simpl in H.
  - contradiction.
  - destruct H as [H|H]; [subst; reflexivity | eapply IH; eauto].
Qed.

Lemma strategy_signals_rows data :
  strategy_signals data =
  map strategy_row
    (make_frame data (calculate_rsi (map snd data) 14)
       (rolling_mean 20 (map Some (map snd data)))
       (rolling_mean 50 (map Some (map snd data)))).
Proof.
  unfold strategy_signals, calculate_moving_averages, loc_mask_set_Signal.
  rewrite map_map. reflexivity.
Qed.

(** C5.  On a row whose RSI, MA20 and MA50 are all defined, the signal
    before the time-based exit is Sell when [RSI > 50] or [MA20 < MA50];
    otherwise Buy when [RSI < 30] and [MA20 > MA50]; otherwise Hold.  A row
    meeting both conditions is a Sell. *)
Theorem C5_strategy_rule :
  forall data row rsi ma20 ma50,
    In row (strategy_signals data) ->
    RSI row = Some rsi -> MA20 row = Some ma20 -> MA50 row = Some ma50 ->
    ((50 < rsi \/ ma20 < ma50) -> Signal row = (-1)%Z) /\
    (~ (50 < rsi \/ ma20 < ma50) -> (rsi < 30 /\ ma50 < ma20) ->
       Signal row = 1%Z) /\
    (~ (50 < rsi \/ ma20 < ma50) -> ~ (rsi < 30 /\ ma50 < ma20) ->
       Signal row = 0%Z).
Proof.
  intros data row rsi ma20 ma50 Hin Hr Ha Hb.
  rewrite strategy_signals_rows in Hin. apply in_map_iff in Hin.
  destruct Hin as [r0 [Hrow Hin0]]. apply make_frame_Signal in Hin0.
  assert (Hsell : sell_condition row = true <-> (50 < rsi \/ ma20 < ma50)).
  { unfold sell_condition, gt_nan, lt_nan. rewrite Hr, Ha, Hb.
    rewrite orb_true_iff, !Qlt_bool_iff. tauto. }
  assert (Hbuy : buy_condition row = true <-> (rsi < 30 /\ ma50 < ma20)).
  { unfold buy_condition, gt_nan, lt_nan. rewrite Hr, Ha, Hb.
    rewrite andb_true_iff, !Qlt_bool_iff. tauto. }
  assert (Hind : sell_condition r0 = sell_condition row /\
                 buy_condition r0 = buy_condition row).
  { subst row. unfold strategy_row.
    destruct (buy_condition r0) eqn:Eb;
      destruct (sell_condition _) eqn:Es in |- *; split; auto. }
  destruct Hind as [Is Ib].
  assert (Hsig : Signal row =
                 if sell_condition row then (-1)%Z
                 else if buy_condition row then 1%Z else 0%Z).
  { rewrite <- Is, <- Ib. subst row. unfold strategy_row.
    destruct (buy_condition r0) eqn:Eb.
    - change (sell_condition (set_Signal 1 r0)) with (sell_condition r0).
      destruct (sell_condition r0); reflexivity.
    - destruct (sell_condition r0); [reflexivity | exact Hin0]. }
  rewrite Hsig. repeat split.
  - intro H. apply Hsell in H. rewrite H. reflexivity.
  - intros Hn H. apply Hbuy in H. rewrite H.
    destruct (sell_condition row) eqn:E; [|reflexivity].
    exfalso. apply Hn, Hsell. reflexivity.
  - intros Hn Hnb.
    destruct (sell_condition row) eqn:E.
    { exfalso. apply Hn, Hsell. reflexivity. }
    destruct (buy_condition row) eqn:E'; [|reflexivity].
    exfalso. apply Hnb, Hbuy. reflexivity.
Qed.

Lemma C5_strategy_rule_witness :
  Signal (nth 75 (strategy_signals (rise_then_fade 76))
              (mkRow 0 0 None None None 0%Z)) = 1%Z.
Proof.
  eapply (C5_strategy_rule (rise_then_fade 76)).
  - apply nth_In. apply Nat.ltb_lt. vm_compute. reflexivity.
  - vm_compute. reflexivity.
  - vm_compute. reflexivity.
  - vm_compute. reflexivity.
  - intros [H|H]; vm_compute in H; discriminate.
  - split; vm_compute; reflexivity.
Defined.

(** ** The time-based exit walk *)

Lemma overridden_refl fr : Forall2 overridden fr fr.
Proof.
  induction fr; constructor; auto. left. reflexivity.
Qed.

Lemma loc_set_overridden fr0 fr label :
  Forall2 overridden fr0 fr ->
  Forall2 overridden fr0 (loc_set_Signal label (-1) fr).
Proof.
  induction 1 as [|r r' fr0 fr Hr _ IH]; simpl; constructor; auto.
  destruct (date r' =? label)%Z; [|exact Hr].
  destruct Hr as [Hr|Hr]; subst r'; right; reflexivity.
Qed.

(** What one step of the walk does to the frame: nothing, or the write
    [signals.loc[date, 'Signal'] = -1]. *)
Lemma walk_step_frame st row :
  frame (walk_step st row) = frame st \/
  frame (walk_step st row) = loc_set_Signal (date row) (-1) (frame st).
Proof.
  unfold walk_step.
  destruct (_ && _); [left; reflexivity|].
  destruct (_ && _); [left; reflexivity|].
  destruct (_ && _); [|left; reflexivity].
  destruct (buy_date st); [|left; reflexivity].
  destruct (_ >=? _)%Z; [right | left]; reflexivity.
Qed.

Lemma walk_overridden fr0 rows st :
  Forall2 overridden fr0 (frame st) ->
  Forall2 overridden fr0 (frame (fold_left walk_step rows st)).
Proof.
  revert st. induction rows as [|r rows IH]; intros st H; simpl; [exact H|].
  apply IH. destruct (walk_step_frame st r) as [E|E]; rewrite E.
  - exact H.
  - apply loc_set_overridden. exact H.
Qed.

Lemma forced_exit_walk_overridden signals :
  Forall2 overridden signals (frame (forced_exit_walk signals)).
Proof.
  unfold forced_exit_walk. apply walk_overridden. simpl.
  apply overridden_refl.
Qed.

(** A Sell written by the walk is never undone by a later step. *)
Lemma loc_set_keeps_sell fr label d :
  (forall r, In r fr -> date r = d -> Signal r = (-1)%Z) ->
  forall r, In r (loc_set_Signal label (-1) fr) -> date r = d ->
            Signal r = (-1)%Z.
Proof.
  intros H r Hin Hd. unfold loc_set_Signal in Hin.
  apply in_map_iff in Hin. destruct Hin as [r0 [Hr Hin]].
  destruct (date r0 =? label)%Z; subst r; [reflexivity | auto].
Qed.

Lemma walk_keeps_sell rows st d :
  (forall r, In r (frame st) -> date r = d -> Signal r = (-1)%Z) ->
  forall r, In r (frame (fold_left walk_step rows st)) -> date r = d ->
            Signal r = (-1)%Z.
Proof.
  revert st. induction rows as [|x rows IH]; intros st H; simpl; [exact H|].
  apply IH. destruct (walk_step_frame st x) as [E|E]; rewrite E.
  - exact H.
  - apply loc_set_keeps_sell. exact H.
Qed.

(** ** C10: a Buy signal met while in position *)

(** C10.  When the walk is in position with entry date [entry] and meets
    a row whose signal is Buy: before 30 days have passed nothing changes
    (still in position, same entry date, frame untouched); from 30 days
    on the walk returns to flat and the row's signal is written to Sell,
    which the rest of the walk leaves in place. *)
Theorem C10_buy_while_in_position :
  forall st row entry,
    in_position st = true ->
    buy_date st = Some entry ->
    Signal row = 1%Z ->
    ((date row - entry < 30)%Z -> walk_step st row = st) /\
    ((30 <= date row - entry)%Z ->
       in_position (walk_step st row) = false /\
       buy_date (walk_step st row) = None /\
       frame (walk_step st row) = loc_set_Signal (date row) (-1) (frame st) /\
       forall later r,
         In r (frame (fold_left walk_step later (walk_step st row))) ->
         date r = date row -> Signal r = (-1)%Z).
Proof.
  intros st row entry Hin Hbd Hsig.
  assert (E : walk_step st row =
              if (date row - entry >=? 30)%Z
              then {| in_position := false; buy_date := None;
                      frame := loc_set_Signal (date row) (-1) (frame st) |}
              else st).
  { unfold walk_step. rewrite Hin, Hbd, Hsig. reflexivity. }
  rewrite E. split; intro H.
  - destruct (date row - entry >=? 30)%Z eqn:C; [lia | reflexivity].
  - destruct (date row - entry >=? 30)%Z eqn:C; [|lia]. simpl.
    repeat split. intros later r.
    apply walk_keeps_sell. simpl. intros r0 Hr0 Hd.
    unfold loc_set_Signal in Hr0. apply in_map_iff in Hr0.
    destruct Hr0 as [r1 [Hr1 _]].
    destruct (date r1 =? date row)%Z eqn:D; subst r0; [reflexivity|].
    apply Z.eqb_neq in D. contradiction.
Qed.

Lemma C10_buy_while_in_position_witness :
  walk_step (mkWalk true (Some 0%Z) [mkRow 10 100 None None None 1%Z])
            (mkRow 10 100 None None None 1%Z)
  = mkWalk true (Some 0%Z) [mkRow 10 100 None None None 1%Z] /\
  frame (walk_step (mkWalk true (Some 0%Z) [mkRow 31 100 None None None 1%Z])
                   (mkRow 31 100 None None None 1%Z))
  = [mkRow 31 100 None None None (-1)%Z].
Proof.
  split.
  - apply (C10_buy_while_in_position
             (mkWalk true (Some 0%Z) [mkRow 10 100 None None None 1%Z])
             (mkRow 10 100 None None None 1%Z) 0%Z);
      [reflexivity | reflexivity | reflexivity | vm_compute; reflexivity].
  - destruct (C10_buy_while_in_position
                (mkWalk true (Some 0%Z) [mkRow 31 100 None None None 1%Z])
                (mkRow 31 100 None None None 1%Z) 0%Z)
      as [_ H]; [reflexivity | reflexivity | reflexivity |].
    destruct H as [_ [_ [H _]]]; [vm_compute; discriminate|].
    rewrite H. reflexivity.
Defined.

(** ** C6: warm-up rows *)

Lemma Forall2_nth_error_r {A B : Type} (R : A -> B -> Prop) l l' i y :
  Forall2 R l l' -> nth_error l' i = Some y ->
  exists x, nth_error l i = Some x /\ R x y.
Proof.
  intro H. revert i. induction H as [|a b l l' Hab _ IH]; intros i Hi.
  - destruct i; discriminate.
  - destruct i as [|i]; simpl in *.
    + inversion Hi; subst. eauto.
    + apply IH. exact Hi.
Qed.

Lemma overridden_fields r r' :
  overridden r r' ->
  date r' = date r /\ Price r' = Price r /\ RSI r' = RSI r /\
  MA20 r' = MA20 r /\ MA50 r' = MA50 r /\
  (Signal r' = Signal r \/ Signal r' = (-1)%Z).
Proof.
  intros [H|H]; subst r'; simpl; repeat split; auto.
Qed.

Lemma strategy_row_fields r :
  date (strategy_row r) = date r /\ Price (strategy_row r) = Price r /\
  RSI (strategy_row r) = RSI r /\ MA20 (strategy_row r) = MA20 r /\
  MA50 (strategy_row r) = MA50 r.
Proof.
  unfold strategy_row.
  destruct (buy_condition r); destruct (sell_condition _); simpl; auto.
Qed.

Lemma make_frame_nth data rsi ma20 ma50 i r :
  nth_error (make_frame data rsi ma20 ma50) i = Some r ->
  nth_error data i = Some (date r, Price r) /\
  RSI r = nth i rsi None /\ MA20 r = nth i ma20 None /\
  MA50 r = nth i ma50 None /\ Signal r = 0%Z.
Proof.
  revert rsi ma20 ma50 i.
  induction data as [|[d c] data IH]; intros rsi ma20 ma50 i H; simpl in H.
  - destruct i; discriminate.
  - destruct i as [|i]; simpl in H.
    + inversion H; subst; clear H. simpl.
      destruct rsi, ma20, ma50; simpl; auto.
    + apply IH in H. destruct H as [H1 [H2 [H3 [H4 H5]]]].
      simpl. rewrite H2, H3, H4.
      destruct rsi, ma20, ma50; simpl; repeat split; auto;
        destruct i; reflexivity.
Qed.

Lemma make_frame_length data rsi ma20 ma50 :
  length (make_frame data rsi ma20 ma50) = length data.
Proof.
  revert rsi ma20 ma50.
  induction data as [|[d c] data IH]; intros; simpl; [|rewrite IH]; reflexivity.
Qed.

Lemma nth_map_seq {A : Type} (f : nat -> A) n i d :
  (i < n)%nat -> nth i (map f (seq 0 n)) d = f i.
Proof.
  intro H. rewrite nth_indep with (d' := f 0%nat)
    by (rewrite length_map, length_seq; exact H).
  rewrite map_nth, seq_nth by exact H. reflexivity.
Qed.

Lemma rolling_mean_warm_up window s i :
  (S i < window)%nat -> nth i (rolling_mean window s) None = None.
Proof.
  intro H. unfold rolling_mean.
  destruct (Nat.lt_ge_cases i (length s)) as [Hi|Hi].
  - rewrite nth_map_seq by exact Hi.
    apply Nat.ltb_lt in H. rewrite H. reflexivity.
  - apply nth_overflow. rewrite length_map, length_seq. exact Hi.
Qed.

Lemma zip_with_rsi_warm_up gain loss i :
  nth i gain None = None ->
  nth i (zip_with rsi_entry gain loss) None = None.
Proof.
  revert loss i. induction gain as [|g gain IH]; intros loss i H; simpl.
  - destruct i; reflexivity.
  - destruct loss as [|l loss]; [destruct i; reflexivity|].
    destruct i as [|i]; simpl in *.
    + subst g. reflexivity.
    + apply IH. exact H.
Qed.

(** The rows of the output, by position: a row of the input, its
    indicators, and a signal that is the strategy's or a forced Sell. *)
Lemma generate_signals_nth data i row :
  nth_error (generate_signals data) i = Some row ->
  nth_error data i = Some (date row, Price row) /\
  RSI row = nth i (calculate_rsi (map snd data) 14) None /\
  MA20 row = nth i (rolling_mean 20 (map Some (map snd data))) None /\
  MA50 row = nth i (rolling_mean 50 (map Some (map snd data))) None /\
  (Signal row = (-1)%Z \/
   Signal row = (if sell_condition row then (-1)%Z
                 else if buy_condition row then 1%Z else 0%Z)).
Proof.
  intro H. unfold generate_signals in H.
  destruct (Forall2_nth_error_r overridden _ _ i row
              (forced_exit_walk_overridden _) H)
    as [r [Hr Hov]].
  rewrite strategy_signals_rows in Hr.
  rewrite nth_error_map in Hr.
  destruct (nth_error (make_frame _ _ _ _) i) as [r0|] eqn:E; [|discriminate].
  inversion Hr; subst r; clear Hr.
  apply make_frame_nth in E. destruct E as [E1 [E2 [E3 [E4 E5]]]].
  apply overridden_fields in Hov.
  destruct Hov as [O1 [O2 [O3 [O4 [O5 O6]]]]].
  destruct (strategy_row_fields r0) as [S1 [S2 [S3 [S4 S5]]]].
  rewrite O1, O2, O3, O4, O5, S1, S2, S3, S4, S5.
  repeat split; auto.
  destruct O6 as [O6|O6]; [right | left; exact O6].
  rewrite O6.
  assert (Cs : sell_condition row = sell_condition r0).
  { unfold sell_condition. rewrite O3, O4, O5, S3, S4, S5. reflexivity. }
  assert (Cb : buy_condition row = buy_condition r0).
  { unfold buy_condition. rewrite O3, O4, O5, S3, S4, S5. reflexivity. }
  rewrite Cs, Cb. unfold strategy_row.
  destruct (buy_condition r0).
  - change (sell_condition (set_Signal 1 r0)) with (sell_condition r0).
    destruct (sell_condition r0); reflexivity.
  - destruct (sell_condition r0); [reflexivity | exact E5].
Qed.

Lemma generate_signals_length data :
  length (generate_signals data) = length data.
Proof.
  unfold generate_signals.
  rewrite <- (Forall2_length (forced_exit_walk_overridden _)).
  rewrite strategy_signals_rows, length_map. apply make_frame_length.
Qed.

(** C6, as the code behaves.  No row is dropped: the output has one row
    per input timestamp, in order, with the input's date and close.  The
    first 13 rows have no RSI, the first 19 no MA20 and the first 49 no
    MA50.  A row lacking any of the three never carries a Buy: the
    strategy rule leaves it Sell when the values it has meet the Sell
    condition and Hold otherwise, and the time-based exit either keeps
    that signal or writes a Sell over it. *)
Theorem C6_warm_up_rows_kept :
  forall data,
    length (generate_signals data) = length data /\
    (forall i row,
       nth_error (generate_signals data) i = Some row ->
       nth_error data i = Some (date row, Price row) /\
       ((i < 13)%nat -> RSI row = None) /\
       ((i < 19)%nat -> MA20 row = None) /\
       ((i < 49)%nat -> MA50 row = None) /\
       (RSI row = None \/ MA20 row = None \/ MA50 row = None ->
        Signal row <> 1%Z /\
        (Signal row = 0%Z \/ Signal row = (-1)%Z) /\
        (sell_condition row = true -> Signal row = (-1)%Z) /\
        exists r0,
          nth_error (strategy_signals data) i = Some r0 /\
          Signal r0 = (if sell_condition row then (-1)%Z else 0%Z) /\
          overridden r0 row)).
Proof.
  intro data. split; [apply generate_signals_length|].
  intros i row H.
  pose proof (generate_signals_nth _ _ _ H) as Hnth.
  destruct Hnth as [H1 [H2 [H3 [H4 _]]]].
  split; [exact H1|]. split; [|split; [|split]].
  - intro Hi. rewrite H2. unfold calculate_rsi.
    apply zip_with_rsi_warm_up. apply rolling_mean_warm_up. lia.
  - intro Hi. rewrite H3. apply rolling_mean_warm_up. lia.
  - intro Hi. rewrite H4. apply rolling_mean_warm_up. lia.
  - intros Hnan.
    assert (Hb : buy_condition row = false).
    { unfold buy_condition, gt_nan, lt_nan.
      destruct Hnan as [E|[E|E]]; rewrite E.
      - reflexivity.
      - destruct (MA50 row); apply andb_false_r.
      - apply andb_false_r. }
    unfold generate_signals in H.
    destruct (Forall2_nth_error_r overridden _ _ i row
                (forced_exit_walk_overridden _) H)
      as [r0 [Hr0 Hov]].
    assert (Hs0 : Signal r0 = if sell_condition row then (-1)%Z else 0%Z).
    { pose proof Hr0 as Hr. rewrite strategy_signals_rows in Hr.
      rewrite nth_error_map in Hr.
      destruct (nth_error (make_frame _ _ _ _) i) as [r|] eqn:E;
        [|discriminate].
      inversion Hr; subst r0; clear Hr.
      apply make_frame_nth in E. destruct E as [_ [_ [_ [_ E5]]]].
      destruct (overridden_fields _ _ Hov) as [_ [_ [O3 [O4 [O5 _]]]]].
      destruct (strategy_row_fields r) as [_ [_ [S3 [S4 S5]]]].
      assert (Cs : sell_condition row = sell_condition r).
      { unfold sell_condition. rewrite O3, O4, O5, S3, S4, S5. reflexivity. }
      assert (Cb : buy_condition row = buy_condition r).
      { unfold buy_condition. rewrite O3, O4, O5, S3, S4, S5. reflexivity. }
      rewrite Cs. rewrite Cb in Hb. unfold strategy_row. rewrite Hb.
      destruct (sell_condition r); [reflexivity | exact E5]. }
    assert (Hsig : Signal row = Signal r0 \/ Signal row = (-1)%Z).
    { destruct Hov as [E|E]; subst row; [left | right]; reflexivity. }
    rewrite Hs0 in Hsig.
    split; [|split; [|split]].
    + destruct (sell_condition row); destruct Hsig; congruence.
    + destruct (sell_condition row); destruct Hsig; auto.
    + intro Hs. rewrite Hs in Hsig. destruct Hsig; assumption.
    + exists r0. auto.
Qed.

(** C6, as the specification words it, fails: on a three-day series the
    output still has its three rows, none of which has a defined RSI, MA20
    or MA50. *)
Lemma C6_warm_up_rows_not_dropped :
  ~ (forall row, In row (generate_signals three_days) ->
       RSI row <> None /\ MA20 row <> None /\ MA50 row <> None).
Proof.
  intro H.
  destruct (H (mkRow 0 100 None None None 0%Z)) as [H1 _].
  - vm_compute. left. reflexivity.
  - apply H1. reflexivity.
Qed.

(** On [rise_fall_flat] the row of day 133 has no RSI and does not meet
    the Sell condition: the strategy rule leaves it Hold, and the
    time-based exit of the Buy of day 101 writes the Sell it carries. *)
Lemma C6_warm_up_rows_kept_witness :
  exists row r0,
    nth_error (generate_signals (rise_fall_flat 96)) 95 = Some row /\
    date row = 133%Z /\ RSI row = None /\ sell_condition row = false /\
    nth_error (strategy_signals (rise_fall_flat 96)) 95 = Some r0 /\
    Signal r0 = 0%Z /\ Signal row = (-1)%Z /\ row = set_Signal (-1) r0.
Proof.
  destruct (C6_warm_up_rows_kept (rise_fall_flat 96)) as [_ H].
  edestruct (H 95%nat) as [_ [_ [_ [_ Hrow]]]]; [vm_compute; reflexivity|].
  destruct Hrow as [_ [_ [_ [r0 [Hr0 [Hs0 Hov]]]]]]; [left; reflexivity|].
  eexists. exists r0. split; [vm_compute; reflexivity|].
  split; [reflexivity|]. split; [reflexivity|]. split; [reflexivity|].
  split; [exact Hr0|]. split; [exact Hs0|]. split; [reflexivity|].
  destruct Hov as [E|E]; [|exact E].
  rewrite <- E in Hs0. discriminate.
Defined.

(** ** The walk, row by row *)

Lemma walk_row_cases ip bd r :
  (Signal r = 1%Z /\ ip = false /\
   walk_row ip bd r = mkWalk true (Some (date r)) [r]) \/
  (Signal r = (-1)%Z /\ ip = true /\
   walk_row ip bd r = mkWalk false None [r]) \/
  (exists b, ip = true /\ bd = Some b /\ Signal r <> (-1)%Z /\
             (30 <= date r - b)%Z /\
             walk_row ip bd r = mkWalk false None [set_Signal (-1) r]) \/
  (walk_row ip bd r = mkWalk ip bd [r] /\
   (ip = false -> Signal r <> 1%Z) /\
   (ip = true -> Signal r <> (-1)%Z /\
                 forall b, bd = Some b -> (date r - b < 30)%Z)).
Proof.
  unfold walk_row, walk_step. simpl.
  destruct (Signal r =? 1)%Z eqn:E1; destruct ip; simpl.
  - apply Z.eqb_eq in E1.
    assert (E2 : (Signal r =? -1)%Z = false) by (apply Z.eqb_neq; lia).
    rewrite E2. simpl. destruct bd as [b|]; simpl.
    + destruct (date r - b >=? 30)%Z eqn:C.
      * right. right. left. exists b. rewrite Z.eqb_refl.
        repeat split; auto; lia.
      * right. right. right. repeat split; try lia; try discriminate.
        intros b' Hb. inversion Hb; subst. lia.
    + right. right. right. repeat split; try lia; discriminate.
  - apply Z.eqb_eq in E1. left. auto.
  - apply Z.eqb_neq in E1.
    destruct (Signal r =? -1)%Z eqn:E2; simpl.
    + apply Z.eqb_eq in E2. right. left. auto.
    + apply Z.eqb_neq in E2. destruct bd as [b|]; simpl.
      * destruct (date r - b >=? 30)%Z eqn:C.
        -- right. right. left. exists b. rewrite Z.eqb_refl.
           repeat split; auto; lia.
        -- right. right. right. repeat split; auto; try discriminate.
           intros b' Hb. inversion Hb; subst. lia.
      * right. right. right. repeat split; auto; discriminate.
  - apply Z.eqb_neq in E1.
    destruct (Signal r =? -1)%Z; simpl;
      right; right; right; repeat split; auto; discriminate.
Qed.

Lemma walk_row_frame ip bd r :
  exists f, frame (walk_row ip bd r) = [f] /\ date f = date r.
Proof.
  destruct (walk_row_cases ip bd r) as [[_ [_ E]]|[[_ [_ E]]|[[b [_ [_ [_ [_ E]]]]]|[E _]]]];
    rewrite E; simpl; eauto.
Qed.

Lemma walk_row_entry_seen seen ip bd r :
  (ip = true -> exists e, bd = Some e /\ In e seen) ->
  in_position (walk_row ip bd r) = true ->
  exists e, buy_date (walk_row ip bd r) = Some e /\ In e (seen ++ [date r]).
Proof.
  intros Hw.
  destruct (walk_row_cases ip bd r) as [[_ [_ E]]|[[_ [_ E]]|[[b [_ [_ [_ [_ E]]]]]|[E _]]]];
    rewrite E; simpl; intro H; try discriminate.
  - exists (date r). split; [reflexivity|]. apply in_or_app. right. left.
    reflexivity.
  - destruct (Hw H) as [e [He Hin]]. exists e. split; [exact He|].
    apply in_or_app. left. exact Hin.
Qed.

Lemma walk_row_buy ip bd r f :
  frame (walk_row ip bd r) = [f] -> Signal f = 1%Z ->
  in_position (walk_row ip bd r) = true.
Proof.
  destruct (walk_row_cases ip bd r) as [[_ [_ E]]|[[S [_ E]]|[[b [_ [_ [_ [_ E]]]]]|[E [Hf _]]]]];
    rewrite E; simpl; intros Hfr Hs; inversion Hfr; subst f; simpl in *;
    try reflexivity; try lia.
  destruct ip; [reflexivity|]. exfalso. apply Hf; auto.
Qed.

Lemma walk_row_in_position e r f :
  frame (walk_row true (Some e) r) = [f] ->
  (Signal f = (-1)%Z /\ in_position (walk_row true (Some e) r) = false) \/
  (Signal f <> (-1)%Z /\ in_position (walk_row true (Some e) r) = true /\
   buy_date (walk_row true (Some e) r) = Some e /\ (date r - e < 30)%Z).
Proof.
  destruct (walk_row_cases true (Some e) r)
    as [[_ [C _]]|[[S [_ E]]|[[b [_ [_ [_ [_ E]]]]]|[E [_ Ht]]]]];
    try discriminate; rewrite E; simpl; intro Hfr; inversion Hfr; subst f;
    simpl; auto.
  destruct (Ht eq_refl) as [Hs Hb]. right. repeat split; auto.
Qed.

(** With one row per label, the walk over the whole frame leaves the rows
    [walk_rows] computes. *)
Lemma loc_set_Signal_fresh label v fr :
  (forall r, In r fr -> date r <> label) -> loc_set_Signal label v fr = fr.
Proof.
  intro H. unfold loc_set_Signal. rewrite <- (map_id fr) at 2.
  apply map_ext_in. intros r Hr. apply H in Hr.
  apply Z.eqb_neq in Hr. rewrite Hr. reflexivity.
Qed.

Lemma walk_step_on_frame ip bd r before after :
  (forall x, In x before -> date x <> date r) ->
  (forall x, In x after -> date x <> date r) ->
  walk_step (mkWalk ip bd (before ++ r :: after)) r =
  mkWalk (in_position (walk_row ip bd r)) (buy_date (walk_row ip bd r))
         (before ++ frame (walk_row ip bd r) ++ after).
Proof.
  intros Hb Ha.
  assert (L : loc_set_Signal (date r) (-1) (before ++ r :: after) =
              before ++ [set_Signal (-1) r] ++ after).
  { unfold loc_set_Signal. rewrite map_app. simpl. rewrite Z.eqb_refl.
    fold (loc_set_Signal (date r) (-1) before).
    fold (loc_set_Signal (date r) (-1) after).
    rewrite !loc_set_Signal_fresh by assumption. reflexivity. }
  unfold walk_row, walk_step. simpl.
  destruct (_ && _); [reflexivity|].
  destruct (_ && _); [reflexivity|].
  destruct (_ && _); [|reflexivity].
  destruct bd as [b|]; [|reflexivity].
  destruct (_ >=? _)%Z; [|reflexivity].
  simpl. rewrite Z.eqb_refl. rewrite L. reflexivity.
Qed.

Lemma walk_positional rows : forall before ip bd,
  NoDup (map date (before ++ rows)) ->
  frame (fold_left walk_step rows (mkWalk ip bd (before ++ rows))) =
  before ++ walk_rows ip bd rows.
Proof.
  induction rows as [|r rest IH]; intros before ip bd Hnd; simpl.
  - reflexivity.
  - rewrite map_app in Hnd. simpl in Hnd.
    pose proof (NoDup_remove_2 _ _ _ Hnd) as Hfresh.
    rewrite walk_step_on_frame.
    + destruct (walk_row_frame ip bd r) as [f [Hf Hd]]. rewrite Hf. simpl.
      change (before ++ f :: rest) with (before ++ [f] ++ rest).
      rewrite app_assoc. rewrite IH.
      * rewrite <- app_assoc. reflexivity.
      * rewrite <- app_assoc, map_app. simpl. rewrite Hd. exact Hnd.
    + intros x Hx E. apply Hfresh. apply in_or_app. left.
      rewrite <- E. apply in_map. exact Hx.
    + intros x Hx E. apply Hfresh. apply in_or_app. right.
      rewrite <- E. apply in_map. exact Hx.
Qed.

(** ** C4: the time-based exit closes the position *)

Lemma simulate_day_sells self st row st' :
  Signal row = (-1)%Z -> (0 < shares (portfolio st))%Z ->
  simulate_day self st row = Ok st' ->
  shares (portfolio st') = 0%Z /\
  trades st' = trades st ++
    [ mkTrade (date row) SELL (shares (portfolio st)) (Price row)
              (sale_proceeds self st row) (current_value_at st row) ].
Proof.
  intros Hs Hh. unfold simulate_day. cbv zeta. simpl. rewrite Hs. simpl.
  assert (E : (shares (portfolio st) >? 0)%Z = true) by (apply Z.gtb_lt; lia).
  rewrite E. intro H. inversion H; subst; clear H. simpl. auto.
Qed.

Lemma simulate_day_keeps self st row st' :
  Signal row <> (-1)%Z -> (0 < shares (portfolio st))%Z ->
  simulate_day self st row = Ok st' ->
  shares (portfolio st') = shares (portfolio st) /\ trades st' = trades st.
Proof.
  intros Hs Hh. unfold simulate_day. cbv zeta. simpl.
  assert (E : (shares (portfolio st) =? 0)%Z = false) by (apply Z.eqb_neq; lia).
  apply Z.eqb_neq in Hs. rewrite E, Hs, andb_false_r. simpl.
  intro H. inversion H; subst; clear H. simpl. auto.
Qed.

Lemma closed_by_extend seen ts tb d' more :
  (forall t, In t ts -> In (trade_date t) seen) ->
  (forall d, In d seen -> (d < d')%Z) ->
  closed_by seen ts tb -> closed_by (seen ++ [d']) (ts ++ more) tb.
Proof.
  intros Hd Hlt [t [Hin [Ha [Hq [Hafter Hb]]]]].
  exists t. repeat split; auto.
  - apply in_or_app. left. exact Hin.
  - intros d Hdin H30. apply in_app_or in Hdin. destruct Hdin as [Hdin|[E|[]]].
    + auto.
    + subst d. apply Hd, Hlt in Hin. lia.
Qed.

Lemma joint_step self seen ip bd st r f st' :
  joint seen ip bd st ->
  (forall d, In d seen -> (d < date r)%Z) ->
  frame (walk_row ip bd r) = [f] ->
  simulate_day self st f = Ok st' ->
  joint (seen ++ [date r])
        (in_position (walk_row ip bd r)) (buy_date (walk_row ip bd r)) st'.
Proof.
  intros J Hlt Hf Hday.
  assert (Hdf : date f = date r).
  { destruct (walk_row_frame ip bd r) as [f' [Hf' Hd]].
    rewrite Hf in Hf'. inversion Hf'; subst. exact Hd. }
  pose proof (walk_row_entry_seen seen ip bd r (j_walk _ _ _ _ J)) as Hwalk.
  assert (Hseen : forall d, In d seen -> In d (seen ++ [date r])).
  { intros d Hd. apply in_or_app. left. exact Hd. }
  assert (Hnow : In (date r) (seen ++ [date r])).
  { apply in_or_app. right. left. reflexivity. }
  destruct (Z.eq_dec (shares (portfolio st)) 0) as [Hflat|Hheld].
  - (* flat before the day *)
    destruct (simulate_day_inv _ _ _ _ Hday) as [_ [_ Heff]].
    destruct Heff as [n Hs _ _ Hn _ _ Hs' Htr | _ Hpos _ _ _ | _ Hs' Htr].
    + (* a Buy is executed *)
      pose proof (walk_row_buy ip bd r f Hf Hs) as Hip.
      destruct (Hwalk Hip) as [e [He Hein]].
      assert (Hle : (e <= date r)%Z).
      { apply in_app_or in Hein. destruct Hein as [H|[H|[]]].
        - apply Hlt in H. lia.
        - lia. }
      constructor.
      * intros t Ht. rewrite Htr in Ht. apply in_app_or in Ht.
        destruct Ht as [Ht|[Ht|[]]].
        -- apply Hseen. apply (j_trade_dates _ _ _ _ J). exact Ht.
        -- subst t. simpl. rewrite Hdf. exact Hnow.
      * lia.
      * exact Hwalk.
      * intros _. eexists. exists e. split; [eexists; exact Htr|].
        simpl. repeat split; auto; try lia.
        intros d Hd. rewrite Hdf. apply in_app_or in Hd.
        destruct Hd as [Hd|[Hd|[]]]; [apply Hlt in Hd|]; lia.
      * intros tb Htb Hbuy. rewrite Htr in Htb. apply in_app_or in Htb.
        destruct Htb as [Htb|[Htb|[]]].
        -- right. rewrite Htr.
           destruct (j_closed _ _ _ _ J tb Htb Hbuy) as [[Hp _]|Hc]; [lia|].
           apply closed_by_extend; auto. apply (j_trade_dates _ _ _ _ J).
        -- left. split; [lia|]. subst tb. eexists. exact Htr.
    + lia.
    + (* nothing happens *)
      constructor.
      * intros t Ht. rewrite Htr in Ht. apply Hseen.
        apply (j_trade_dates _ _ _ _ J). exact Ht.
      * lia.
      * exact Hwalk.
      * intro Hp. lia.
      * intros tb Htb Hbuy. rewrite Htr in Htb. right.
        destruct (j_closed _ _ _ _ J tb Htb Hbuy) as [[Hp _]|Hc]; [lia|].
        rewrite Htr, <- (app_nil_r (trades st)).
        apply closed_by_extend; auto. apply (j_trade_dates _ _ _ _ J).
  - (* holding before the day *)
    assert (Hpos : (0 < shares (portfolio st))%Z).
    { pose proof (j_shares _ _ _ _ J). lia. }
    destruct (j_open _ _ _ _ J Hpos)
      as [tb [e [[earlier Hopen] [Hbuy [Hq [Hip [Hbd [Hle Hbound]]]]]]]].
    subst ip bd.
    destruct (walk_row_in_position e r f Hf) as [[Hs Hip']|[Hs [Hip' [Hbd' H30]]]].
    + (* the row is a Sell, natural or forced *)
      destruct (simulate_day_sells _ _ _ _ Hs Hpos Hday) as [Hs' Htr].
      rewrite Hip'. constructor.
      * intros t Ht. rewrite Htr in Ht. apply in_app_or in Ht.
        destruct Ht as [Ht|[Ht|[]]].
        -- apply Hseen. apply (j_trade_dates _ _ _ _ J). exact Ht.
        -- subst t. simpl. rewrite Hdf. exact Hnow.
      * lia.
      * discriminate.
      * intro Hp. lia.
      * intros tb0 Htb0 Hbuy0. right. rewrite Htr in Htb0.
        apply in_app_or in Htb0. destruct Htb0 as [Htb0|[Htb0|[]]].
        -- destruct (j_closed _ _ _ _ J tb0 Htb0 Hbuy0) as [[_ [earlier0 Ho]]|Hc].
           ++ rewrite Hopen in Ho. apply app_inj_tail in Ho.
              destruct Ho as [_ Ho]. subst tb0.
              eexists. split; [rewrite Htr; apply in_or_app; right; left; reflexivity|].
              simpl. repeat split; auto.
              ** rewrite Hdf. apply Hlt. apply (j_trade_dates _ _ _ _ J). exact Htb0.
              ** intros d Hd H30. rewrite Hdf. apply in_app_or in Hd.
                 destruct Hd as [Hd|[Hd|[]]]; [apply Hbound in Hd|]; lia.
           ++ rewrite Htr. apply closed_by_extend; auto.
              apply (j_trade_dates _ _ _ _ J).
        -- subst tb0. discriminate.
    + (* the position is kept *)
      destruct (simulate_day_keeps _ _ _ _ Hs Hpos Hday) as [Hs' Htr].
      rewrite Hip', Hbd'. constructor.
      * intros t Ht. rewrite Htr in Ht. apply Hseen.
        apply (j_trade_dates _ _ _ _ J). exact Ht.
      * lia.
      * intros _. destruct (j_walk _ _ _ _ J eq_refl) as [e' [He' Hin]].
        inversion He'; subst e'. exists e. auto.
      * intros _. exists tb, e. split; [exists earlier; congruence|].
        repeat split; auto; try congruence.
        intros d Hd. apply in_app_or in Hd.
        destruct Hd as [Hd|[Hd|[]]]; [apply Hbound; exact Hd | lia].
      * intros tb0 Htb0 Hbuy0. rewrite Htr in Htb0.
        destruct (j_closed _ _ _ _ J tb0 Htb0 Hbuy0) as [[_ [earlier0 Ho]]|Hc].
        -- left. split; [lia|]. exists earlier0. congruence.
        -- right. rewrite Htr, <- (app_nil_r (trades st)).
           apply closed_by_extend; auto. apply (j_trade_dates _ _ _ _ J).
Qed.

Lemma joint_start self : joint [] false None (sim_start self).
Proof.
  constructor; simpl.
  - intros t [].
  - lia.
  - discriminate.
  - lia.
  - intros tb [].
Qed.

Lemma joint_run self rows : forall seen ip bd st final,
  joint seen ip bd st ->
  (forall d r, In d seen -> In r rows -> (d < date r)%Z) ->
  StronglySorted Z.lt (map date rows) ->
  simulate_from self st (walk_rows ip bd rows) = Ok final ->
  exists ip' bd', joint (seen ++ map date rows) ip' bd' final.
Proof.
  induction rows as [|r rest IH]; intros seen ip bd st final J Hlt Hs Hrun;
    simpl in *.
  - inversion Hrun; subst. rewrite app_nil_r. eauto.
  - destruct (walk_row_frame ip bd r) as [f [Hf Hd]].
    rewrite Hf in Hrun. simpl in Hrun.
    apply bind_Ok_inv in Hrun. destruct Hrun as [st1 [Hday Hrest]].
    apply StronglySorted_inv in Hs. destruct Hs as [Hs Hall].
    assert (J1 := joint_step self seen ip bd st r f st1 J
                    (fun d Hd => Hlt d r Hd (or_introl eq_refl)) Hf Hday).
    destruct (IH _ _ _ _ final J1) as [ip' [bd' J']].
    + intros d r' Hdin Hr'. apply in_app_or in Hdin.
      destruct Hdin as [Hdin|[Hdin|[]]].
      * apply Hlt; auto.
      * subst d. rewrite Forall_forall in Hall. apply Hall.
        apply in_map. exact Hr'.
    + exact Hs.
    + exact Hrest.
    + exists ip', bd'. rewrite <- app_assoc in J'. exact J'.
Qed.

Lemma StronglySorted_lt_NoDup (l : list Z) :
  StronglySorted Z.lt l -> NoDup l.
Proof.
  induction 1 as [|a l _ IH Hall]; constructor; [|exact IH].
  intro Hin. rewrite Forall_forall in Hall. apply Hall in Hin. lia.
Qed.

(** On a frame whose dates increase, a Buy trade dated [D] and a row
    dated 30 days or more after [D] have a Sell of the bought quantity
    between them. *)
Lemma forced_exit_closes_position self signals ts h p tb r :
  StronglySorted Z.lt (map date signals) ->
  simulate_trading self (frame (forced_exit_walk signals)) = Ok (ts, h, p) ->
  In tb ts -> action tb = BUY ->
  In r signals -> (30 <= date r - trade_date tb)%Z ->
  exists t,
    In t ts /\ action t = SELL /\ trade_shares t = trade_shares tb /\
    (trade_date tb < trade_date t <= date r)%Z.
Proof.
  intros Hs Hsim Htb Hbuy Hr H30.
  apply simulate_trading_Ok in Hsim.
  destruct Hsim as [final [Hrun [Hts _]]]. subst ts.
  unfold forced_exit_walk in Hrun.
  pose proof (walk_positional signals [] false None) as Hw. simpl in Hw.
  rewrite Hw in Hrun by (apply StronglySorted_lt_NoDup; exact Hs).
  destruct (joint_run self signals [] false None _ final (joint_start self))
    as [ip' [bd' J]]; auto.
  { intros d r' []. }
  simpl in J. assert (Hd : In (date r) (map date signals)) by (apply in_map; exact Hr).
  destruct (j_closed _ _ _ _ J tb Htb Hbuy) as [[Hpos [earlier Ho]]|Hc].
  - destruct (j_open _ _ _ _ J Hpos)
      as [tb' [e [[earlier' Ho'] [_ [_ [_ [_ [_ Hbound]]]]]]]].
    rewrite Ho in Ho'. apply app_inj_tail in Ho'. destruct Ho' as [_ Ho'].
    subst tb'. apply Hbound in Hd. lia.
  - destruct Hc as [t [Hin [Ha [Hq [Hafter Hb]]]]].
    exists t. repeat split; auto.
Qed.

Lemma make_frame_dates data rsi ma20 ma50 :
  map date (make_frame data rsi ma20 ma50) = map fst data.
Proof.
  revert rsi ma20 ma50.
  induction data as [|[d c] data IH]; intros; simpl; [|rewrite IH]; reflexivity.
Qed.

Lemma strategy_signals_dates data :
  map date (strategy_signals data) = map fst data.
Proof.
  rewrite strategy_signals_rows, map_map.
  rewrite <- (make_frame_dates data (calculate_rsi (map snd data) 14)
                (rolling_mean 20 (map Some (map snd data)))
                (rolling_mean 50 (map Some (map snd data)))).
  apply map_ext. intro r. apply strategy_row_fields.
Qed.

Lemma ascending_sorted (l : list Z) :
  ascending l = true -> StronglySorted Z.lt l.
Proof.
  intro H. apply Sorted_StronglySorted; [exact Z.lt_strorder.(StrictOrder_Transitive)|].
  induction l as [|a l IH]; [constructor|].
  destruct l as [|b l].
  - constructor; constructor.
  - simpl in H. apply andb_true_iff in H. destruct H as [Hab Hrest].
    constructor; [apply IH; exact Hrest|].
    constructor. apply Z.ltb_lt. exact Hab.
Qed.

Lemma generate_signals_prices data :
  Forall (fun x => ~ snd x == 0) data ->
  Forall (fun r => ~ Price r == 0) (generate_signals data).
Proof.
  intro Hall. apply Forall_forall. intros row Hin.
  apply In_nth_error in Hin. destruct Hin as [i Hi].
  apply generate_signals_nth in Hi. destruct Hi as [Hi _].
  apply nth_error_In in Hi. rewrite Forall_forall in Hall.
  apply (Hall _ Hi).
Qed.

(** C4, as the code behaves.  On a series with increasing dates the run
    returns when no price is zero; and in every run that returns, for
    every Buy trade made on a day D and every row dated D+30 or later,
    the trade list has a Sell of the bought quantity dated after D and no
    later than that row: the position is closed at the latest on the
    first row that is 30 days or more after the entry. *)
Theorem C4_closed_by_first_row_30_days_on :
  forall self data,
    StronglySorted Z.lt (map fst data) ->
    (Forall (fun x => ~ snd x == 0) data ->
     exists ts h p,
       simulate_trading self (generate_signals data) = Ok (ts, h, p)) /\
    forall ts h p tb d,
      simulate_trading self (generate_signals data) = Ok (ts, h, p) ->
      In tb ts -> action tb = BUY ->
      In d (map fst data) -> (30 <= d - trade_date tb)%Z ->
      exists t,
        In t ts /\ action t = SELL /\ trade_shares t = trade_shares tb /\
        (trade_date tb < trade_date t <= d)%Z.
Proof.
  intros self data Hs. split.
  { intro Hall. apply simulate_trading_total.
    apply generate_signals_prices. exact Hall. }
  intros ts h p tb d Hsim Htb Hbuy Hd H30.
  rewrite <- strategy_signals_dates in Hs, Hd.
  apply in_map_iff in Hd. destruct Hd as [r [Hdr Hr]]. subst d.
  eapply forced_exit_closes_position; eauto.
Qed.

Lemma C4_closed_by_first_row_30_days_on_witness :
  exists t,
    action t = SELL /\ trade_shares t = 44%Z /\
    (101 < trade_date t <= 133)%Z.
Proof.
  destruct (C4_closed_by_first_row_30_days_on (Backtester_init 100000) fade)
    as [_ H].
  { apply ascending_sorted. vm_compute. reflexivity. }
  edestruct H
    with (tb := mkTrade 101 BUY 44 676 (29773744 # 1000) 100000) (d := 133%Z)
    as [t [_ [H2 [H3 H4]]]].
  - vm_compute. reflexivity.
  - left. reflexivity.
  - reflexivity.
  - vm_compute. do 95 right. left. reflexivity.
  - vm_compute. discriminate.
  - exists t. split; [exact H2|]. split; [exact H3 | exact H4].
Defined.

(** C4, as the specification words it, fails.  On [fade] the position
    opened on day 101 meets no Sell condition afterwards, day 131 is a
    Saturday, and the only Sell is the forced one of Monday 133: no Sell
    is dated on or before day 101 + 30. *)
Lemma C4_no_sell_within_30_days :
  ~ (forall ts h p tb,
       simulate_trading (Backtester_init 100000) (generate_signals fade)
         = Ok (ts, h, p) ->
       In tb ts -> action tb = BUY ->
       (forall r, In r (strategy_signals fade) ->
                  (trade_date tb < date r)%Z -> sell_condition r = false) ->
       exists t,
         In t ts /\ action t = SELL /\
         (trade_date tb < trade_date t <= trade_date tb + 30)%Z).
Proof.
  intro H.
  edestruct H with (tb := mkTrade 101 BUY 44 676 (29773744 # 1000) 100000)
    as [t [Hin [Ha Hd]]].
  - vm_compute. reflexivity.
  - left. reflexivity.
  - reflexivity.
  - assert (E : forallb (fun r => negb (101 <? date r)%Z
                                   || negb (sell_condition r))
                        (strategy_signals fade) = true)
      by (vm_compute; reflexivity).
    rewrite forallb_forall in E. intros r Hr Hlt. specialize (E r Hr).
    simpl in Hlt. apply Z.ltb_lt in Hlt. rewrite Hlt in E. simpl in E.
    destruct (sell_condition r); [discriminate | reflexivity].
  - simpl in Hin, Hd. destruct Hin as [E|[E|[]]]; subst t.
    + discriminate.
    + simpl in Hd. lia.
Qed.

(** * Further properties of the simulator *)

(** ** The [total_value] a run returns *)

(** A property kept by every day whose row is in a given class holds
    after any number of such days. *)
Lemma simulate_from_invariant_rows self (P : Sim -> Prop) (R : Row -> Prop) :
  (forall st row st',
      R row -> P st -> simulate_day self st row = Ok st' -> P st') ->
  forall signals st final,
    Forall R signals ->
    P st -> simulate_from self st signals = Ok final -> P final.
Proof.
  intros Hstep signals.
  induction signals as [|r rest IH]; intros st final Hall HP H.
  - simpl in H. inversion H. subst. exact HP.
  - simpl in H. apply bind_Ok_inv in H. destruct H as [st' [Hd Hr]].
    inversion Hall as [|? ? Hrow Hrest]; subst.
    eapply IH; [exact Hrest | | exact Hr]. eapply Hstep; eauto.
Qed.

(** In the exact arithmetic of this model, a day changes what the ledger
    is worth at the day's price by the fee on the shares that changed
    hands. *)
Lemma simulate_day_worth self st row st' :
  simulate_day self st row = Ok st' ->
  cash (portfolio st') + inject_Z (shares (portfolio st')) * Price row ==
  current_value_at st row
  - transaction_cost self *
    (inject_Z (Z.abs (shares (portfolio st') - shares (portfolio st)))
     * Price row).
Proof.
  intros Hday.
  destruct (simulate_day_inv _ _ _ _ Hday) as [_ [_ Heff]].
  unfold current_value_at.
  destruct Heff as [n _ Hflat _ Hn _ Hc' Hs' _ | _ Hpos Hc' Hs' _ | Hc' Hs' _].
  - rewrite Hc', Hs', Hflat. unfold buy_cost.
    replace (Z.abs (0 + n - 0)) with n by lia.
    replace (0 + n)%Z with n by lia.
    change (inject_Z 0) with 0. ring.
  - rewrite Hc', Hs'. unfold sale_proceeds.
    replace (Z.abs (0 - shares (portfolio st))) with (shares (portfolio st))
      by lia.
    change (inject_Z 0) with 0. ring.
  - rewrite Hc', Hs'. rewrite Z.sub_diag. simpl.
    change (inject_Z 0) with 0. ring.
Qed.

(** The [total_value] of the returned ledger is the valuation made before
    the last day's trade; it is not refreshed after the trade.  When the
    last day makes no trade it is what the returned cash and shares are
    worth at the last close.  When the last day trades at a positive
    price, with the fee of [__init__], it is strictly more than that: the
    fee of the last trade is missing from it. *)
Theorem returned_total_value_omits_last_fee :
  forall cap pre row ts h p,
    simulate_trading (Backtester_init cap) (pre ++ [row]) = Ok (ts, h, p) ->
    exists st,
      simulate_from (Backtester_init cap) (sim_start (Backtester_init cap)) pre
        = Ok st /\
      total_value p = current_value_at st row /\
      (trades st = ts ->
       total_value p == cash p + inject_Z (shares p) * Price row) /\
      (trades st <> ts -> 0 < Price row ->
       cash p + inject_Z (shares p) * Price row < total_value p).
Proof.
  intros cap pre row ts h p H.
  apply simulate_trading_Ok in H. destruct H as [final [Hrun [Hts [_ Hp]]]].
  destruct (simulate_from_prefix _ _ _ _ _ Hrun) as [st [Hpre Hlast]].
  simpl in Hlast. apply bind_Ok_inv in Hlast.
  destruct Hlast as [st' [Hday Hfin]]. inversion Hfin; subst st'; clear Hfin.
  exists st. split; [exact Hpre|].
  destruct (simulate_day_inv _ _ _ _ Hday) as [_ [Hval Heff]].
  pose proof (simulate_day_worth _ _ _ _ Hday) as Hw.
  subst p ts. split; [exact Hval|]. rewrite Hval.
  assert (Hnp : forall n, (0 < n)%Z -> 0 < Price row ->
                          0 < inject_Z n * Price row).
  { intros n Hn Hprice. apply Qmult_lt_0_compat; [|exact Hprice].
    change 0 with (inject_Z 0). rewrite <- Zlt_Qlt. exact Hn. }
  destruct Heff as [n _ Hflat _ Hn _ _ Hs' Htr | _ Hpos _ Hs' Htr | _ Hs' Htr].
  - split.
    + intro Hsame. exfalso. rewrite Htr in Hsame.
      apply (f_equal (@length Trade)) in Hsame.
      rewrite length_app in Hsame. simpl in Hsame. lia.
    + intros _ Hprice.
      replace (Z.abs (shares (portfolio final) - shares (portfolio st))) with n
        in Hw by lia.
      specialize (Hnp n Hn Hprice). simpl in Hw. lra.
  - split.
    + intro Hsame. exfalso. rewrite Htr in Hsame.
      apply (f_equal (@length Trade)) in Hsame.
      rewrite length_app in Hsame. simpl in Hsame. lia.
    + intros _ Hprice.
      replace (Z.abs (shares (portfolio final) - shares (portfolio st)))
        with (shares (portfolio st)) in Hw by lia.
      specialize (Hnp _ Hpos Hprice). simpl in Hw. lra.
  - split.
    + intros _.
      replace (shares (portfolio final) - shares (portfolio st))%Z with 0%Z
        in Hw by lia.
      simpl in Hw. change (inject_Z 0) with 0 in Hw. lra.
    + intros Hdiff. exfalso. apply Hdiff. symmetry. exact Htr.
Qed.

Lemma returned_total_value_omits_last_fee_witness :
  exists ts h p,
    simulate_trading (Backtester_init 100000) scenario = Ok (ts, h, p) /\
    cash p + inject_Z (shares p) * 110 < total_value p.
Proof.
  do 3 eexists. split; [vm_compute; reflexivity|].
  edestruct (returned_total_value_omits_last_fee 100000
               [mkRow 1 100 None None None 1%Z]
               (mkRow 2 110 None None None (-1)%Z))
    as [st [Hpre [_ [_ H]]]].
  - vm_compute. reflexivity.
  - apply H; [|reflexivity].
    vm_compute in Hpre. inversion Hpre; subst st; clear Hpre.
    simpl. discriminate.
Defined.

(** ** What the trade list records *)

(** With a positive fee and positive prices, every recorded Buy cost more
    than its shares at the day's price and every recorded Sell brought
    less: the value of a trade is [shares * price * (1 + fee)] for a Buy
    and [shares * price * (1 - fee)] for a Sell, on a positive quantity. *)
Theorem trades_carry_the_fee :
  forall self signals ts h p,
    0 < transaction_cost self ->
    Forall (fun r => 0 < Price r) signals ->
    simulate_trading self signals = Ok (ts, h, p) ->
    Forall (fun t =>
              (0 < trade_shares t)%Z /\
              match action t with
              | BUY =>
                  value t = inject_Z (trade_shares t) * trade_price t
                            * (1 + transaction_cost self) /\
                  inject_Z (trade_shares t) * trade_price t < value t
              | SELL =>
                  value t = inject_Z (trade_shares t) * trade_price t
                            * (1 - transaction_cost self) /\
                  value t < inject_Z (trade_shares t) * trade_price t
              end) ts.
Proof.
  intros self signals ts h p Hfee Hall Hsim.
  apply simulate_trading_Ok in Hsim. destruct Hsim as [final [Hrun [Hts _]]].
  subst ts. revert Hrun.
  apply (simulate_from_invariant_rows self
           (fun st => Forall _ (trades st)) (fun r => 0 < Price r));
    [| exact Hall | constructor].
  intros st row st' Hp HP Hday.
  destruct (simulate_day_inv _ _ _ _ Hday) as [_ [_ Heff]].
  assert (Hnp : forall n, (0 < n)%Z -> 0 < inject_Z n * Price row).
  { intros n Hn. apply Qmult_lt_0_compat; [|exact Hp].
    change 0 with (inject_Z 0). rewrite <- Zlt_Qlt. exact Hn. }
  destruct Heff as [n _ _ _ Hn _ _ _ Htr | _ Hpos _ _ Htr | _ _ Htr];
    rewrite Htr; [| |exact HP]; apply Forall_app; (split; [exact HP|]);
    constructor; [|constructor| |constructor]; simpl.
  - split; [exact Hn|]. split; [reflexivity|]. unfold buy_cost.
    specialize (Hnp n Hn). nra.
  - split; [exact Hpos|]. split; [reflexivity|]. unfold sale_proceeds.
    specialize (Hnp _ Hpos). nra.
Qed.

Lemma trades_carry_the_fee_witness :
  exists ts h p,
    simulate_trading (Backtester_init 100000) scenario = Ok (ts, h, p) /\
    Forall (fun t => (0 < trade_shares t)%Z) ts.
Proof.
  do 3 eexists. split; [vm_compute; reflexivity|].
  eapply Forall_impl;
    [| eapply (trades_carry_the_fee (Backtester_init 100000) scenario);
       [ vm_compute; reflexivity
       | repeat constructor
       | vm_compute; reflexivity ] ].
  intros t [H _]. exact H.
Defined.

(** Every recorded trade was made on a row of the series, on that row's
    date and at its price, and the row's signal is Buy for a Buy and Sell
    for a Sell: no trade is ever made on a Hold. *)
Theorem trades_follow_signals :
  forall self signals ts h p,
    simulate_trading self signals = Ok (ts, h, p) ->
    Forall (fun t =>
              exists row,
                In row signals /\
                trade_date t = date row /\ trade_price t = Price row /\
                Signal row = match action t with
                             | BUY => 1%Z
                             | SELL => (-1)%Z
                             end) ts.
Proof.
  intros self signals ts h p Hsim.
  apply simulate_trading_Ok in Hsim. destruct Hsim as [final [Hrun [Hts _]]].
  subst ts. revert Hrun.
  apply (simulate_from_invariant_rows self
           (fun st => Forall _ (trades st)) (fun r => In r signals));
    [| apply Forall_forall; auto | constructor].
  intros st row st' Hin HP Hday.
  destruct (simulate_day_inv _ _ _ _ Hday) as [_ [_ Heff]].
  destruct Heff as [n Hs _ _ _ _ _ _ Htr | Hs _ _ _ Htr | _ _ Htr];
    rewrite Htr; [| |exact HP]; apply Forall_app; (split; [exact HP|]);
    constructor; [|constructor| |constructor]; exists row; simpl; auto.
Qed.

Lemma trades_follow_signals_witness :
  exists ts h p,
    simulate_trading (Backtester_init 100000) scenario = Ok (ts, h, p) /\
    Forall (fun t => exists row, In row scenario /\ trade_date t = date row) ts.
Proof.
  do 3 eexists. split; [vm_compute; reflexivity|].
  eapply Forall_impl;
    [| eapply (trades_follow_signals (Backtester_init 100000) scenario);
       vm_compute; reflexivity ].
  intros t [row [H1 [H2 _]]]. exists row. auto.
Defined.

(** ** The cash check of a Buy *)

Lemma int_of_bounds (x : Q) :
  0 <= x -> inject_Z (int_of x) <= x /\ ((0 < int_of x)%Z <-> 1 <= x).
Proof.
  intro Hx. rewrite (int_of_floor x Hx). split; [apply Qfloor_le|]. split.
  - intro Hn. apply Qle_trans with (inject_Z (Qfloor x)); [|apply Qfloor_le].
    change 1 with (inject_Z 1). rewrite <- Zle_Qle. lia.
  - intro H1. apply Qfloor_resp_le in H1.
    change (Qfloor 1) with 1%Z in H1. lia.
Qed.

(** With the constants of [__init__] (size 0.3, fee 0.001) the cash
    check never rejects a Buy.  On a day with a Buy signal met flat, with
    non-negative cash and a positive price, either zero shares are sized
    and nothing changes, or a Buy of a positive number of shares is
    recorded and its cost is no more than the cash: the shares sized from
    30% of the cash cost about 30.03% of it at most. *)
Theorem sized_buy_is_affordable :
  forall cap st row st',
    Signal row = 1%Z ->
    shares (portfolio st) = 0%Z ->
    0 < Price row ->
    0 <= cash (portfolio st) ->
    let self := Backtester_init cap in
    simulate_day self st row = Ok st' ->
    (int_of_quotient (current_value_at st row * max_position_size self)
                     (Price row) = Ok 0%Z /\
     trades st' = trades st /\
     shares (portfolio st') = 0%Z /\
     cash (portfolio st') = cash (portfolio st))
    \/
    (exists n,
       (0 < n)%Z /\
       trades st' = trades st ++
         [ mkTrade (date row) BUY n (Price row) (buy_cost self n row)
                   (current_value_at st row) ] /\
       buy_cost self n row <= cash (portfolio st) /\
       shares (portfolio st') = n /\
       cash (portfolio st') = cash (portfolio st) - buy_cost self n row).
Proof.
  intros cap st row st' Hsig Hflat Hp Hc self Hday.
  assert (Hcv : current_value_at st row == cash (portfolio st)).
  { unfold current_value_at. rewrite Hflat. change (inject_Z 0) with 0. ring. }
  assert (Hpnz : ~ Price row == 0) by (intro E; rewrite E in Hp; lra).
  set (x := current_value_at st row * max_position_size self / Price row).
  assert (Hxp : x * Price row == current_value_at st row * (3 # 10)).
  { unfold x. simpl. field. exact Hpnz. }
  assert (Hx0 : 0 <= x).
  { unfold x. apply Qle_shift_div_l; [exact Hp|]. simpl. lra. }
  destruct (int_of_bounds x Hx0) as [Hnx Hn0].
  assert (Hsized : int_of_quotient
                     (current_value_at st row * max_position_size self)
                     (Price row) = Ok (int_of x)).
  { unfold int_of_quotient.
    destruct (Qeq_bool (Price row) 0) eqn:E; [|reflexivity].
    apply Qeq_bool_iff in E. contradiction. }
  assert (Hcost : buy_cost self (int_of x) row <= cash (portfolio st)).
  { assert (inject_Z (int_of x) * Price row
            <= current_value_at st row * (3 # 10)).
    { rewrite <- Hxp. apply Qmult_le_compat_r; [exact Hnx | lra]. }
    unfold buy_cost. simpl. lra. }
  assert (Hn0' : (0 <= int_of x)%Z).
  { rewrite (int_of_floor x Hx0). apply Qfloor_resp_le in Hx0. exact Hx0. }
  unfold simulate_day, int_of_quotient in Hday. cbv zeta in Hday.
  simpl in Hday. rewrite Hsig, Hflat in Hday. simpl in Hday.
  destruct (Qeq_bool (Price row) 0) eqn:E.
  { apply Qeq_bool_iff in E. contradiction. }
  simpl in Hday.
  assert (En : int_of ((cash (portfolio st) + inject_Z 0 * Price row)
                       * (3 # 10) / Price row) = int_of x).
  { unfold x, current_value_at. rewrite Hflat. reflexivity. }
  rewrite En in Hday.
  destruct (int_of x >? 0)%Z eqn:G.
  - apply Z.gtb_lt in G.
    assert (Hle : Qle_bool (inject_Z (int_of x) * Price row * (1 + (1 # 1000)))
                           (cash (portfolio st)) = true).
    { apply Qle_bool_iff. exact Hcost. }
    rewrite Hle in Hday. inversion Hday; subst st'; clear Hday.
    right. exists (int_of x). simpl.
    unfold buy_cost, current_value_at. rewrite Hflat. simpl.
    repeat split; auto.
  - inversion Hday; subst st'; clear Hday. left.
    assert (H0 : int_of x = 0%Z)
      by (rewrite Z.gtb_ltb in G; apply Z.ltb_ge in G; lia).
    split; [rewrite <- H0; exact Hsized | simpl; auto].
Qed.

Lemma sized_buy_is_affordable_witness :
  exists st' n,
    simulate_day (Backtester_init 100000) (sim_start (Backtester_init 100000))
      (mkRow 1 100 None None None 1%Z) = Ok st' /\
    (0 < n)%Z /\ shares (portfolio st') = n /\
    buy_cost (Backtester_init 100000) n (mkRow 1 100 None None None 1%Z)
    <= 100000.
Proof.
  eexists.
  edestruct (sized_buy_is_affordable 100000
               (sim_start (Backtester_init 100000))
               (mkRow 1 100 None None None 1%Z))
    as [[H0 _]|[n [Hn [_ [Hcost [Hs _]]]]]].
  - reflexivity.
  - reflexivity.
  - vm_compute. reflexivity.
  - vm_compute. discriminate.
  - vm_compute. reflexivity.
  - vm_compute in H0. discriminate.
  - exists n. split; [vm_compute; reflexivity|].
    split; [exact Hn|]. split; [exact Hs | exact Hcost].
Defined.

(** ** Series without a Buy *)

(** A day met flat whose signal is not Buy: Hold, or a Sell with nothing
    to sell. *)
Lemma simulate_day_flat_no_buy self st row :
  Signal row <> 1%Z -> shares (portfolio st) = 0%Z ->
  simulate_day self st row =
  Ok {| portfolio := {| cash := cash (portfolio st);
                        shares := shares (portfolio st);
                        total_value := current_value_at st row |};
        trades := trades st;
        portfolio_history := portfolio_history st ++ [point_at st row] |}.
Proof.
  intros H1 H0. unfold simulate_day, point_at, current_value_at.
  cbv zeta. simpl.
  apply Z.eqb_neq in H1. rewrite H1, H0. simpl.
  rewrite andb_false_r. reflexivity.
Qed.

Lemma simulate_trading_no_buy self signals :
  Forall (fun r => Signal r <> 1%Z) signals ->
  exists h p,
    simulate_trading self signals = Ok ([], h, p) /\
    length h = length signals /\
    cash p = initial_capital self /\ shares p = 0%Z /\
    total_value p == initial_capital self.
Proof.
  intros Hall.
  assert (G : forall st,
             trades st = [] -> shares (portfolio st) = 0%Z ->
             cash (portfolio st) = initial_capital self ->
             total_value (portfolio st) == initial_capital self ->
             exists st', simulate_from self st signals = Ok st' /\
                         trades st' = [] /\ shares (portfolio st') = 0%Z /\
                         cash (portfolio st') = initial_capital self /\
                         total_value (portfolio st') == initial_capital self).
  { induction Hall as [|r rest Hr _ IH]; intros st Ht Hs Hc Hv.
    - exists st. simpl. auto.
    - simpl. rewrite simulate_day_flat_no_buy by assumption. simpl.
      apply IH; simpl; auto.
      unfold current_value_at. rewrite Hs, Hc.
      change (inject_Z 0) with 0. ring. }
  destruct (G (sim_start self)) as [st' [Hrun [Ht [Hs [Hc Hv]]]]];
    try reflexivity.
  exists (portfolio_history st'), (portfolio st').
  unfold simulate_trading. rewrite Hrun. simpl. rewrite Ht.
  split; [reflexivity|]. split; [|auto].
  rewrite (history_length _ _ _ _ Hrun). reflexivity.
Qed.

(** A series in which no signal is a Buy, whatever its Sells and its
    prices (zero included), runs to the end without a trade: the cash is
    untouched, no share is held, there is one history point per row and
    the total value equals the initial capital. *)
Theorem no_buy_no_trade :
  forall self signals,
    Forall (fun r => Signal r <> 1%Z) signals ->
    exists h p,
      simulate_trading self signals = Ok ([], h, p) /\
      length h = length signals /\
      cash p = initial_capital self /\ shares p = 0%Z /\
      total_value p == initial_capital self.
Proof.
  intros self signals Hall.
  assert (G : forall st,
             trades st = [] -> shares (portfolio st) = 0%Z ->
             cash (portfolio st) = initial_capital self ->
             total_value (portfolio st) == initial_capital self ->
             exists st', simulate_from self st signals = Ok st' /\
                         trades st' = [] /\ shares (portfolio st') = 0%Z /\
                         cash (portfolio st') = initial_capital self /\
                         total_value (portfolio st') == initial_capital self).
  { induction Hall as [|r rest Hr _ IH]; intros st Ht Hs Hc Hv.
    - exists st. simpl. auto.
    - simpl. rewrite simulate_day_flat_no_buy by assumption. simpl.
      apply IH; simpl; auto.
      unfold current_value_at. rewrite Hs, Hc.
      change (inject_Z 0) with 0. ring. }
  destruct (G (sim_start self)) as [st' [Hrun [Ht [Hs [Hc Hv]]]]];
    try reflexivity.
  exists (portfolio_history st'), (portfolio st').
  unfold simulate_trading. rewrite Hrun. simpl. rewrite Ht.
  split; [reflexivity|]. split; [|auto].
  rewrite (history_length _ _ _ _ Hrun). reflexivity.
Qed.

Lemma no_buy_no_trade_witness :
  exists h p,
    simulate_trading (Backtester_init 100000)
      [mkRow 1 100 None None None (-1)%Z; mkRow 2 0 None None None 0%Z]
      = Ok ([], h, p) /\
    total_value p == 100000.
Proof.
  destruct (no_buy_no_trade (Backtester_init 100000)
              [mkRow 1 100 None None None (-1)%Z; mkRow 2 0 None None None 0%Z])
    as [h [p [H [_ [_ [_ Hv]]]]]].
  - repeat constructor; discriminate.
  - exists h, p. split; [exact H | exact Hv].
Defined.

(** A row of the output without an MA50 is never a Buy. *)
Lemma generate_signals_needs_ma50 data i row :
  nth_error (generate_signals data) i = Some row ->
  MA50 row = None -> Signal row <> 1%Z.
Proof.
  intros H Hma. apply generate_signals_nth in H.
  destruct H as [_ [_ [_ [_ [H|H]]]]]; [lia|].
  assert (Hb : buy_condition row = false).
  { unfold buy_condition, gt_nan, lt_nan. rewrite Hma. apply andb_false_r. }
  rewrite Hb in H. destruct (sell_condition row); lia.
Qed.

(** Fewer than 50 rows of prices never produce a trade: the 50-day
    average is undefined on every row, so no row is a Buy, and the run
    returns the initial capital untouched. *)
Theorem short_series_never_trades :
  forall self data,
    (length data < 50)%nat ->
    exists h p,
      simulate_trading self (generate_signals data) = Ok ([], h, p) /\
      length h = length data /\
      cash p = initial_capital self /\ shares p = 0%Z /\
      total_value p == initial_capital self.
Proof.
  intros self data Hlen.
  destruct (simulate_trading_no_buy self (generate_signals data))
    as [h [p [H [Hh Hrest]]]].
  - apply Forall_forall. intros row Hin.
    apply In_nth_error in Hin. destruct Hin as [i Hi].
    apply (generate_signals_needs_ma50 data i row Hi).
    assert (Hi' : (i < length (generate_signals data))%nat).
    { apply nth_error_Some. rewrite Hi. discriminate. }
    rewrite generate_signals_length in Hi'.
    apply generate_signals_nth in Hi. destruct Hi as [_ [_ [_ [Hma _]]]].
    rewrite Hma. apply rolling_mean_warm_up. lia.
  - exists h, p. split; [exact H|]. split; [|exact Hrest].
    rewrite Hh. apply generate_signals_length.
Qed.

Lemma short_series_never_trades_witness :
  exists h p,
    simulate_trading (Backtester_init 100000) (generate_signals three_days)
      = Ok ([], h, p) /\ length h = 3%nat.
Proof.
  destruct (short_series_never_trades (Backtester_init 100000) three_days)
    as [h [p [H [Hh _]]]].
  - vm_compute. lia.
  - exists h, p. split; [exact H | exact Hh].
Defined.

(** ** The time-based exit, seen from its output *)

Lemma walk_flat_without_buy rows : forall fr,
  Forall (fun r => Signal r <> 1%Z) rows ->
  fold_left walk_step rows (mkWalk false None fr) = mkWalk false None fr.
Proof.
  induction rows as [|r rest IH]; intros fr Hall; simpl; [reflexivity|].
  inversion Hall as [|? ? Hr Hrest]; subst.
  assert (E : walk_step (mkWalk false None fr) r = mkWalk false None fr).
  { unfold walk_step. simpl. apply Z.eqb_neq in Hr. rewrite Hr. simpl.
    rewrite andb_false_r. reflexivity. }
  rewrite E. apply IH. exact Hrest.
Qed.

(** On a frame without a Buy signal the walk never enters a position and
    writes nothing. *)
Theorem walk_without_buy_changes_nothing :
  forall signals,
    Forall (fun r => Signal r <> 1%Z) signals ->
    forced_exit_walk signals = mkWalk false None signals.
Proof.
  intros signals Hall. unfold forced_exit_walk.
  apply walk_flat_without_buy. exact Hall.
Qed.

Lemma walk_without_buy_changes_nothing_witness :
  forced_exit_walk [mkRow 1 100 None None None (-1)%Z;
                    mkRow 40 100 None None None 0%Z]
  = mkWalk false None [mkRow 1 100 None None None (-1)%Z;
                       mkRow 40 100 None None None 0%Z].
Proof.
  apply walk_without_buy_changes_nothing. repeat constructor; discriminate.
Defined.

Lemma walk_rows_forced rows : forall before ip bd,
  (ip = true ->
   exists e j rj, bd = Some e /\ nth_error before j = Some rj /\
                  Signal rj = 1%Z /\ date rj = e) ->
  forall i r f,
    nth_error rows i = Some r ->
    nth_error (walk_rows ip bd rows) i = Some f ->
    f = r \/
    (f = set_Signal (-1) r /\ Signal r <> (-1)%Z /\
     exists j rj,
       (j < length before + i)%nat /\
       nth_error (before ++ rows) j = Some rj /\
       Signal rj = 1%Z /\ (30 <= date r - date rj)%Z).
Proof.
  induction rows as [|r0 rest IH]; intros before ip bd Hinv i r f Hr Hf.
  - destruct i; discriminate.
  - simpl in Hf.
    destruct (walk_row_frame ip bd r0) as [f0 [Hf0 _]].
    rewrite Hf0 in Hf. simpl in Hf.
    destruct i as [|i]; simpl in Hr, Hf.
    + inversion Hr; subst r0; clear Hr. inversion Hf; subst f0; clear Hf.
      destruct (walk_row_cases ip bd r)
        as [[_ [_ E]]|[[_ [_ E]]|[[b [Hip [Hbd [Hs [H30 E]]]]]|[E _]]]];
        rewrite E in Hf0; simpl in Hf0; inversion Hf0; auto.
      right. split; [reflexivity|]. split; [exact Hs|].
      destruct (Hinv Hip) as [e [j [rj [He [Hj [Hsj Hdj]]]]]].
      assert (Heb : e = b) by congruence.
      exists j, rj. split.
      * assert (j < length before)%nat
          by (apply nth_error_Some; rewrite Hj; discriminate).
        lia.
      * split; [|split; [exact Hsj | lia]].
        rewrite nth_error_app1; [exact Hj|].
        apply nth_error_Some. rewrite Hj. discriminate.
    + destruct (IH (before ++ [r0]) (in_position (walk_row ip bd r0))
                  (buy_date (walk_row ip bd r0))) with (i := i) (r := r) (f := f)
        as [H|[H1 [H2 [j [rj [Hj [Hn [Hsj H30]]]]]]]]; auto.
      * destruct (walk_row_cases ip bd r0)
          as [[S1 [_ E]]|[[_ [_ E]]|[[b [_ [_ [_ [_ E]]]]]|[E _]]]];
          rewrite E; simpl; intro Hip'; try discriminate.
        -- exists (date r0), (length before), r0.
           rewrite nth_error_app2, Nat.sub_diag by lia. simpl. auto.
        -- destruct (Hinv Hip') as [e [j [rj [He [Hj [Hsj Hdj]]]]]].
           exists e, j, rj. repeat split; auto.
           rewrite nth_error_app1; [exact Hj|].
           apply nth_error_Some. rewrite Hj. discriminate.
      * right. split; [exact H1|]. split; [exact H2|].
        exists j, rj. rewrite length_app in Hj. simpl in Hj.
        split; [lia|]. split; [|auto].
        rewrite <- app_assoc in Hn. exact Hn.
Qed.

(** On a frame with one row per date, the walk changes a row only by
    forcing a Sell on a Hold or a Buy, and only when an earlier row of the
    frame carries a Buy dated 30 days or more before it: no exit is
    forced without an entry, or sooner than 30 days after one. *)
Theorem forced_sell_needs_30_days :
  forall signals i r f,
    NoDup (map date signals) ->
    nth_error signals i = Some r ->
    nth_error (frame (forced_exit_walk signals)) i = Some f ->
    f = r \/
    (f = set_Signal (-1) r /\ Signal r <> (-1)%Z /\
     exists j rj,
       (j < i)%nat /\ nth_error signals j = Some rj /\
       Signal rj = 1%Z /\ (30 <= date r - date rj)%Z).
Proof.
  intros signals i r f Hnd Hr Hf. unfold forced_exit_walk in Hf.
  pose proof (walk_positional signals [] false None) as Hw. simpl in Hw.
  rewrite Hw in Hf by exact Hnd.
  apply (walk_rows_forced signals [] false None) with (i := i) (r := r);
    [discriminate | exact Hr | exact Hf].
Qed.

Lemma forced_sell_needs_30_days_witness :
  exists j rj,
    (j < 1)%nat /\
    nth_error [mkRow 0 100 None None None 1%Z;
               mkRow 31 100 None None None 0%Z] j = Some rj /\
    Signal rj = 1%Z /\ (30 <= 31 - date rj)%Z.
Proof.
  destruct (forced_sell_needs_30_days
              [mkRow 0 100 None None None 1%Z; mkRow 31 100 None None None 0%Z]
              1 (mkRow 31 100 None None None 0%Z)
              (mkRow 31 100 None None None (-1)%Z))
    as [H|[_ [_ [j [rj H]]]]].
  - repeat constructor; simpl; intuition discriminate.
  - reflexivity.
  - vm_compute. reflexivity.
  - discriminate.
  - exists j, rj. exact H.
Defined.

(** ** The strategy rule and the indicators *)

Lemma buy_excludes_sell r :
  buy_condition r = true -> sell_condition r = false.
Proof.
  unfold buy_condition, sell_condition, gt_nan, lt_nan.
  intro H. apply andb_true_iff in H. destruct H as [H1 H2].
  destruct (RSI r) as [rsi|]; [|discriminate].
  destruct (MA20 r) as [a|]; [|destruct (MA50 r); discriminate].
  destruct (MA50 r) as [b|]; [|discriminate].
  apply Qlt_bool_iff in H1. apply Qlt_bool_iff in H2.
  apply orb_false_iff. split.
  - destruct (Qlt_bool 50 rsi) eqn:E; [|reflexivity].
    apply Qlt_bool_iff in E. lra.
  - destruct (Qlt_bool a b) eqn:E; [|reflexivity].
    apply Qlt_bool_iff in E. lra.
Qed.

Lemma strategy_row_signal r0 :
  Signal r0 = 0%Z ->
  Signal (strategy_row r0) =
  (if buy_condition r0 then 1%Z
   else if sell_condition r0 then (-1)%Z else 0%Z).
Proof.
  intro H0. unfold strategy_row.
  destruct (buy_condition r0) eqn:Eb.
  - change (sell_condition (set_Signal 1 r0)) with (sell_condition r0).
    rewrite (buy_excludes_sell r0 Eb). reflexivity.
  - destruct (sell_condition r0); [reflexivity | exact H0].
Qed.

Lemma strategy_row_conditions r0 :
  buy_condition (strategy_row r0) = buy_condition r0 /\
  sell_condition (strategy_row r0) = sell_condition r0.
Proof.
  unfold strategy_row.
  destruct (buy_condition r0) eqn:Eb; destruct (sell_condition _) eqn:Es;
    split; auto.
Qed.

(** The Buy and the Sell condition never hold on the same row, so the
    order of the two assignments is immaterial: on every row of the frame
    the signal is Buy exactly when the Buy condition holds, Sell exactly
    when the Sell condition holds, and Hold otherwise. *)
Theorem buy_and_sell_never_meet :
  forall data row,
    In row (strategy_signals data) ->
    (buy_condition row = true -> sell_condition row = false) /\
    Signal row = (if buy_condition row then 1%Z
                  else if sell_condition row then (-1)%Z else 0%Z).
Proof.
  intros data row Hin. split; [apply buy_excludes_sell|].
  rewrite strategy_signals_rows in Hin. apply in_map_iff in Hin.
  destruct Hin as [r0 [Hrow Hin0]]. apply make_frame_Signal in Hin0.
  subst row. destruct (strategy_row_conditions r0) as [Eb Es].
  rewrite Eb, Es. apply strategy_row_signal. exact Hin0.
Qed.

Lemma buy_and_sell_never_meet_witness :
  Signal (nth 75 (strategy_signals (rise_then_fade 76))
              (mkRow 0 0 None None None 0%Z)) = 1%Z.
Proof.
  destruct (buy_and_sell_never_meet (rise_then_fade 76)
              (nth 75 (strategy_signals (rise_then_fade 76))
                   (mkRow 0 0 None None None 0%Z))) as [_ H].
  - apply nth_In. apply Nat.ltb_lt. vm_compute. reflexivity.
  - rewrite H. vm_compute. reflexivity.
Defined.

Lemma zip_with_nth_error {A B C : Type} (f : A -> B -> C) xs ys i c :
  nth_error (zip_with f xs ys) i = Some c ->
  exists x y, nth_error xs i = Some x /\ nth_error ys i = Some y /\
              c = f x y.
Proof.
  revert ys i. induction xs as [|x xs IH]; intros ys i H; simpl in H.
  - destruct i; discriminate.
  - destruct ys as [|y ys]; [destruct i; discriminate|].
    destruct i as [|i]; simpl in *.
    + inversion H. eauto.
    + apply IH. exact H.
Qed.

Lemma calculate_rsi_bounds prices period i v :
  nth_error (calculate_rsi prices period) i = Some (Some v) ->
  0 <= v <= 100.
Proof.
  intros H. unfold calculate_rsi in H.
  apply zip_with_nth_error in H. destruct H as [g [l [Hg [Hl Hv]]]].
  destruct g as [g|]; [|discriminate].
  destruct l as [l|]; [|discriminate].
  simpl in Hv.
  destruct (Qeq_bool l 0) eqn:El.
  - destruct (Qeq_bool g 0); inversion Hv. lra.
  - assert (Hnz : ~ l == 0).
    { intro E. apply Qeq_bool_iff in E. congruence. }
    pose proof (rsi_denominator_positive prices period i g l Hg Hl Hnz) as Hd.
    apply nth_error_In in Hg, Hl.
    pose proof (rolling_mean_nonneg period _ (gains_nonneg (diff prices))) as Fg.
    pose proof (rolling_mean_nonneg period _ (losses_nonneg (diff prices))) as Fl.
    rewrite Forall_forall in Fg, Fl.
    specialize (Fg _ Hg g eq_refl). specialize (Fl _ Hl l eq_refl).
    assert (Hpos : 0 < l).
    { destruct (Qlt_le_dec 0 l) as [Hlt|Hle]; [exact Hlt|].
      exfalso. apply Hnz. lra. }
    assert (Hq : 0 <= g / l) by (apply Qle_shift_div_l; [exact Hpos | lra]).
    assert (H1 : 0 <= 100 / (1 + g / l))
      by (apply Qle_shift_div_l; [exact Hd | lra]).
    assert (H2 : 100 / (1 + g / l) <= 100)
      by (apply Qle_shift_div_r; [exact Hd | lra]).
    inversion Hv. lra.
Qed.

(** Every defined RSI lies between 0 and 100. *)
Theorem rsi_between_0_and_100 :
  forall prices period i v,
    nth_error (calculate_rsi prices period) i = Some (Some v) ->
    0 <= v <= 100.
Proof.
  intros prices period i v H. unfold calculate_rsi in H.
  apply zip_with_nth_error in H. destruct H as [g [l [Hg [Hl Hv]]]].
  destruct g as [g|]; [|discriminate].
  destruct l as [l|]; [|discriminate].
  simpl in Hv.
  destruct (Qeq_bool l 0) eqn:El.
  - destruct (Qeq_bool g 0); inversion Hv. lra.
  - assert (Hnz : ~ l == 0).
    { intro E. apply Qeq_bool_iff in E. congruence. }
    pose proof (rsi_denominator_positive prices period i g l Hg Hl Hnz) as Hd.
    apply nth_error_In in Hg, Hl.
    pose proof (rolling_mean_nonneg period _ (gains_nonneg (diff prices))) as Fg.
    pose proof (rolling_mean_nonneg period _ (losses_nonneg (diff prices))) as Fl.
    rewrite Forall_forall in Fg, Fl.
    specialize (Fg _ Hg g eq_refl). specialize (Fl _ Hl l eq_refl).
    assert (Hpos : 0 < l).
    { destruct (Qlt_le_dec 0 l) as [Hlt|Hle]; [exact Hlt|].
      exfalso. apply Hnz. lra. }
    assert (Hq : 0 <= g / l) by (apply Qle_shift_div_l; [exact Hpos | lra]).
    assert (H1 : 0 <= 100 / (1 + g / l))
      by (apply Qle_shift_div_l; [exact Hd | lra]).
    assert (H2 : 100 / (1 + g / l) <= 100)
      by (apply Qle_shift_div_r; [exact Hd | lra]).
    inversion Hv. lra.
Qed.

Lemma rsi_between_0_and_100_witness :
  0 <= (0 # 196) <= 100.
Proof.
  apply (rsi_between_0_and_100 (map snd (rise_then_fade 76)) 14 75).
  vm_compute. reflexivity.
Defined.

Lemma sum_nan_map_Some xs : sum_nan (map Some xs) = Some (Qsum xs).
Proof.
  induction xs as [|x xs IH]; simpl; [reflexivity|]. rewrite IH. reflexivity.
Qed.

Lemma rolling_mean_nth_error window s i :
  (i < length s)%nat ->
  nth_error (rolling_mean window s) i =
  Some (if (S i <? window)%nat then None
        else mean_nan window (firstn window (skipn (S i - window) s))).
Proof.
  intro Hi. unfold rolling_mean.
  rewrite nth_error_map, nth_error_nth' with (d := 0%nat)
    by (rewrite length_seq; exact Hi).
  rewrite seq_nth by exact Hi. reflexivity.
Qed.

Lemma rolling_mean_length window s :
  length (rolling_mean window s) = length s.
Proof.
  unfold rolling_mean. rewrite length_map, length_seq. reflexivity.
Qed.

(** From its [window]-th row on, a trailing mean of numbers is the sum
    of the window over its length. *)
Lemma rolling_mean_full_window window prices i :
  (0 < window <= S i)%nat -> (i < length prices)%nat ->
  nth_error (rolling_mean window (map Some prices)) i =
  Some (Some (Qsum (firstn window (skipn (S i - window) prices))
              / inject_Z (Z.of_nat window))).
Proof.
  intros [Hw0 Hw] Hi.
  rewrite rolling_mean_nth_error by (rewrite length_map; exact Hi).
  assert (E : (S i <? window)%nat = false) by (apply Nat.ltb_ge; lia).
  assert (W : (window =? 0)%nat = false) by (apply Nat.eqb_neq; lia).
  rewrite E. unfold mean_nan. rewrite W.
  rewrite skipn_map, firstn_map, sum_nan_map_Some. reflexivity.
Qed.

(** ** A series that never falls *)

Lemma diff_from_nonneg rest : forall prev,
  never_falls (prev :: rest) -> Forall nonneg_nan (diff_from prev rest).
Proof.
  induction rest as [|p rest IH]; intros prev H; simpl; constructor.
  - intros q E. inversion E.
    specialize (H 0%nat prev p eq_refl eq_refl). lra.
  - apply IH. intros i a b Ha Hb. apply (H (S i) a b); assumption.
Qed.

Lemma diff_nonneg prices :
  never_falls prices -> Forall nonneg_nan (diff prices).
Proof.
  destruct prices as [|p rest]; intro H; simpl; constructor.
  - intros q E. discriminate.
  - apply diff_from_nonneg. exact H.
Qed.

Lemma losses_zero delta :
  Forall nonneg_nan delta ->
  Forall zero_nan
    (map (option_map Qopp) (where_ (fun d => lt_nan d (Some 0)) 0 delta)).
Proof.
  intro H. apply Forall_forall. intros x Hx. unfold where_ in Hx.
  rewrite map_map in Hx. apply in_map_iff in Hx. destruct Hx as [d [Hx Hd]].
  rewrite Forall_forall in H. specialize (H d Hd).
  destruct (lt_nan d (Some 0)) eqn:E; subst x; intros q Hq.
  - destruct d as [v|]; [|discriminate]. simpl in E.
    apply Qlt_bool_iff in E. specialize (H v eq_refl). lra.
  - simpl in Hq. inversion Hq. reflexivity.
Qed.

Lemma sum_nan_zero xs s :
  Forall zero_nan xs -> sum_nan xs = Some s -> s == 0.
Proof.
  intro H. revert s. induction H as [|x xs Hx _ IH]; intros s Hs; simpl in Hs.
  - inversion Hs. reflexivity.
  - destruct x as [q|]; [|discriminate].
    destruct (sum_nan xs) as [s0|]; [|discriminate].
    inversion Hs. rewrite (IH s0 eq_refl), (Hx q eq_refl). reflexivity.
Qed.

Lemma rolling_mean_zero window s :
  Forall zero_nan s -> Forall zero_nan (rolling_mean window s).
Proof.
  intro H. apply Forall_forall. intros x Hx. unfold rolling_mean in Hx.
  apply in_map_iff in Hx. destruct Hx as [i [Hx _]].
  destruct (S i <? window)%nat; [subst x; intros q E; discriminate|].
  unfold mean_nan in Hx.
  destruct (window =? 0)%nat; [subst x; intros q E; discriminate|].
  destruct (sum_nan _) as [t|] eqn:Es; subst x; intros q E; [|discriminate].
  inversion E; subst q; clear E.
  apply sum_nan_zero in Es.
  - rewrite Es. unfold Qdiv. ring.
  - rewrite Forall_forall in *. intros y Hy. apply H.
    rewrite <- (firstn_skipn (S i - window) s). apply in_or_app. right.
    rewrite <- (firstn_skipn window (skipn (S i - window) s)).
    apply in_or_app. left. exact Hy.
Qed.

(** While prices never fall there is no loss to average: the RSI is 100
    wherever it is defined. *)
Lemma rsi_of_rising_prices prices period i x :
  never_falls prices ->
  nth_error (calculate_rsi prices period) i = Some x ->
  x = None \/ x = Some 100.
Proof.
  intros Hnf H. unfold calculate_rsi in H.
  apply zip_with_nth_error in H. destruct H as [g [l [_ [Hl Hx]]]].
  apply nth_error_In in Hl.
  pose proof (rolling_mean_zero period _ (losses_zero _ (diff_nonneg _ Hnf)))
    as Fl.
  rewrite Forall_forall in Fl. specialize (Fl _ Hl).
  subst x. destruct g as [g|]; [|left; reflexivity].
  destruct l as [l|]; [|left; reflexivity].
  simpl. specialize (Fl l eq_refl). apply Qeq_bool_iff in Fl. rewrite Fl.
  destruct (Qeq_bool g 0); auto.
Qed.

(** A series whose close never falls from one row to the next is never
    bought: its RSI is 100 or undefined on every row, the Buy condition
    never holds, and the run ends with the initial capital and no
    trade. *)
Theorem never_falling_series_never_trades :
  forall self data,
    never_falls (map snd data) ->
    Forall (fun r => RSI r = None \/ RSI r = Some 100) (generate_signals data)
    /\
    exists h p,
      simulate_trading self (generate_signals data) = Ok ([], h, p) /\
      cash p = initial_capital self /\ shares p = 0%Z /\
      total_value p == initial_capital self.
Proof.
  intros self data Hnf.
  assert (Hrsi : Forall (fun r => RSI r = None \/ RSI r = Some 100)
                        (generate_signals data)).
  { apply Forall_forall. intros row Hin.
    apply In_nth_error in Hin. destruct Hin as [i Hi].
    apply generate_signals_nth in Hi. destruct Hi as [_ [Hr _]].
    rewrite Hr.
    destruct (nth_error (calculate_rsi (map snd data) 14) i) as [x|] eqn:E.
    - rewrite (nth_error_nth _ _ None E).
      apply (rsi_of_rising_prices _ _ _ _ Hnf E).
    - left. apply nth_overflow. apply nth_error_None. exact E. }
  split; [exact Hrsi|].
  destruct (simulate_trading_no_buy self (generate_signals data))
    as [h [p [H [_ Hrest]]]].
  - rewrite Forall_forall in *. intros row Hin.
    pose proof (Hrsi row Hin) as Hr.
    apply In_nth_error in Hin. destruct Hin as [i Hi].
    apply generate_signals_nth in Hi.
    destruct Hi as [_ [_ [_ [_ [Hs|Hs]]]]]; [lia|].
    assert (Hb : buy_condition row = false).
    { unfold buy_condition, lt_nan. destruct Hr as [E|E]; rewrite E;
        reflexivity. }
    rewrite Hb in Hs. destruct (sell_condition row); lia.
  - exists h, p. auto.
Qed.

Lemma never_fallsb_sound prices :
  never_fallsb prices = true -> never_falls prices.
Proof.
  induction prices as [|a rest IH]; intros H i x y Hx Hy.
  - destruct i; discriminate.
  - destruct rest as [|b rest]; [destruct i; discriminate|].
    simpl in H. apply andb_true_iff in H. destruct H as [Hab Hrest].
    destruct i as [|i]; simpl in Hx, Hy.
    + inversion Hx; inversion Hy; subst. apply Qle_bool_iff. exact Hab.
    + apply (IH Hrest i x y); assumption.
Qed.

Lemma never_falling_series_never_trades_witness :
  exists h p,
    simulate_trading (Backtester_init 100000)
      (generate_signals (rise_then_fade 60)) = Ok ([], h, p).
Proof.
  destruct (never_falling_series_never_trades (Backtester_init 100000)
              (rise_then_fade 60)) as [_ [h [p [H _]]]].
  - apply never_fallsb_sound. vm_compute. reflexivity.
  - exists h, p. exact H.
Defined.

(** ** [analyze_stock] and the backtester's rule *)

Lemma diff_from_length prices : forall prev,
  length (diff_from prev prices) = length prices.
Proof.
  induction prices as [|p rest IH]; intro prev; simpl; [|rewrite IH];
    reflexivity.
Qed.

Lemma diff_length prices : length (diff prices) = length prices.
Proof.
  destruct prices; simpl; [|rewrite diff_from_length]; reflexivity.
Qed.

Lemma zip_with_length {A B C : Type} (f : A -> B -> C) xs ys :
  length xs = length ys -> length (zip_with f xs ys) = length xs.
Proof.
  revert ys. induction xs as [|x xs IH]; intros [|y ys] H; simpl in *;
    try discriminate; [reflexivity|].
  rewrite IH by lia. reflexivity.
Qed.

Lemma calculate_rsi_length prices period :
  length (calculate_rsi prices period) = length prices.
Proof.
  unfold calculate_rsi, where_.
  rewrite zip_with_length; rewrite ?rolling_mean_length, ?length_map;
    [apply diff_length | reflexivity].
Qed.

Lemma iloc_last_nth {A : Type} (s : list A) (d : A) :
  s <> [] -> iloc_last s = Some (nth (length s - 1) s d).
Proof.
  intro H. unfold iloc_last. apply nth_error_nth'.
  destruct s; [contradiction | simpl; lia].
Qed.

(** What [analyze_stock] returns, against the last row of the frame the
    backtester builds from the same closes. *)
Lemma analyze_stock_last_row fetch symbol :
  fetch symbol <> [] ->
  exists a row,
    analyze_stock fetch symbol = Some a /\
    iloc_last (strategy_signals (fetch symbol)) = Some row /\
    analysis_symbol a = symbol /\
    analysis_price a = Price row /\
    analysis_rsi a = RSI row /\
    analysis_ma20 a = MA20 row /\
    analysis_ma50 a = MA50 row /\
    analysis_signal a =
      (if buy_condition row then ADVICE_BUY else ADVICE_HOLD) /\
    Signal row = (if buy_condition row then 1%Z
                  else if sell_condition row then (-1)%Z else 0%Z) /\
    MA50 row =
      nth (length (fetch symbol) - 1)
          (rolling_mean 50 (map Some (map snd (fetch symbol)))) None.
Proof.
  intro Hne. unfold analyze_stock.
  set (data := fetch symbol) in *.
  set (close := map snd data).
  assert (Hn : (0 < length data)%nat)
    by (destruct data; [contradiction | simpl; lia]).
  unfold calculate_moving_averages.
  assert (Lr : length (calculate_rsi close 14) = length data)
    by (rewrite calculate_rsi_length; apply length_map).
  assert (L20 : length (rolling_mean 20 (map Some close)) = length data)
    by (unfold close; rewrite rolling_mean_length, !length_map; reflexivity).
  assert (L50 : length (rolling_mean 50 (map Some close)) = length data)
    by (unfold close; rewrite rolling_mean_length, !length_map; reflexivity).
  assert (Lc : length close = length data) by apply length_map.
  unfold iloc_last. rewrite Lr, L20, L50, Lc.
  rewrite (nth_error_nth' (calculate_rsi close 14) None) by lia.
  rewrite (nth_error_nth' (rolling_mean 20 (map Some close)) None) by lia.
  rewrite (nth_error_nth' (rolling_mean 50 (map Some close)) None) by lia.
  rewrite (nth_error_nth' close 0) by lia.
  rewrite strategy_signals_rows. fold close.
  rewrite length_map, make_frame_length, nth_error_map.
  destruct (nth_error (make_frame data _ _ _) (length data - 1)) as [r0|] eqn:E.
  2:{ apply nth_error_None in E. rewrite make_frame_length in E. lia. }
  apply make_frame_nth in E. destruct E as [E1 [E2 [E3 [E4 E5]]]].
  destruct (strategy_row_fields r0) as [S1 [S2 [S3 [S4 S5]]]].
  destruct (strategy_row_conditions r0) as [Cb Cs].
  eexists. exists (strategy_row r0). split; [reflexivity|].
  split; [reflexivity|]. simpl.
  rewrite S2, S3, S4, S5, Cb, Cs, <- E2, <- E3, <- E4.
  repeat split; auto.
  - unfold close. rewrite nth_indep with (d' := snd (0%Z, 0))
      by (rewrite length_map; lia).
    rewrite map_nth. apply nth_error_nth with (d := (0%Z, 0)) in E1.
    rewrite E1. reflexivity.
  - apply strategy_row_signal. exact E5.
Qed.

(** [analyze_stock] raises IndexError exactly on empty data.  Otherwise
    it reports the close and the three indicators of the last row of the
    backtester's frame, and advises BUY exactly when that row's signal is
    Buy, before any time-based exit. *)
Theorem analyze_stock_agrees_with_backtester :
  forall fetch symbol,
    (fetch symbol = [] -> analyze_stock fetch symbol = None) /\
    (fetch symbol <> [] ->
     exists a row,
       analyze_stock fetch symbol = Some a /\
       iloc_last (strategy_signals (fetch symbol)) = Some row /\
       analysis_price a = Price row /\
       analysis_rsi a = RSI row /\
       analysis_ma20 a = MA20 row /\
       analysis_ma50 a = MA50 row /\
       (analysis_signal a = ADVICE_BUY <-> Signal row = 1%Z)).
Proof.
  intros fetch symbol. split.
  - intro E. unfold analyze_stock. rewrite E. reflexivity.
  - intro Hne.
    destruct (analyze_stock_last_row fetch symbol Hne)
      as [a [row [H1 [H2 [_ [H4 [H5 [H6 [H7 [H8 [H9 _]]]]]]]]]]].
    exists a, row. repeat split; auto.
    + intro Hb. rewrite H8 in Hb. rewrite H9.
      destruct (buy_condition row); [reflexivity | discriminate].
    + intro Hs. rewrite H9 in Hs. rewrite H8.
      destruct (buy_condition row); [reflexivity|].
      destruct (sell_condition row); discriminate.
Qed.

Lemma analyze_stock_agrees_with_backtester_witness :
  exists a,
    analyze_stock (fun _ => rise_then_fade 76) String.EmptyString = Some a /\
    analysis_signal a = ADVICE_BUY.
Proof.
  destruct (analyze_stock_agrees_with_backtester
              (fun _ => rise_then_fade 76) String.EmptyString) as [_ H].
  destruct H as [a [row [H1 [H2 [_ [_ [_ [_ [_ H7]]]]]]]]].
  - vm_compute. discriminate.
  - exists a. split; [exact H1|]. apply H7.
    vm_compute in H2. inversion H2. reflexivity.
Defined.

(** On fewer than 50 bars [analyze_stock] never advises BUY: the 50-day
    average of the last row is undefined, and the advice is HOLD. *)
Theorem analyze_stock_holds_on_short_data :
  forall fetch symbol,
    fetch symbol <> [] ->
    (length (fetch symbol) < 50)%nat ->
    exists a,
      analyze_stock fetch symbol = Some a /\
      analysis_ma50 a = None /\
      analysis_signal a = ADVICE_HOLD.
Proof.
  intros fetch symbol Hne Hlen.
  destruct (analyze_stock_last_row fetch symbol Hne)
    as [a [row [H1 [_ [_ [_ [_ [_ [H7 [H8 [_ H10]]]]]]]]]]].
  assert (Hma : MA50 row = None).
  { rewrite H10. apply rolling_mean_warm_up. lia. }
  exists a. split; [exact H1|]. split; [congruence|].
  rewrite H8. unfold buy_condition, gt_nan, lt_nan. rewrite Hma.
  rewrite andb_false_r. reflexivity.
Qed.

Lemma analyze_stock_holds_on_short_data_witness :
  exists a,
    analyze_stock (fun _ => three_days) String.EmptyString = Some a /\
    analysis_signal a = ADVICE_HOLD.
Proof.
  destruct (analyze_stock_holds_on_short_data
              (fun _ => three_days) String.EmptyString)
    as [a [H [_ Hs]]].
  - discriminate.
  - vm_compute. lia.
  - exists a. split; [exact H | exact Hs].
Defined.

(** ** [prepare_features]: the rows [dropna] keeps *)

Lemma features_frame_nth data i row :
  nth_error (features_frame data) i = Some row ->
  (i < length data)%nat /\
  feature_date row = nth i (map bar_date data) 0%Z /\
  feature_Price row = nth i (map Close data) 0 /\
  feature_RSI row = nth i (calculate_rsi (map Close data) 14) None /\
  feature_MA20 row =
    nth i (rolling_mean 20 (map Some (map Close data))) None /\
  feature_MA50 row =
    nth i (rolling_mean 50 (map Some (map Close data))) None /\
  Price_Change row = nth i (pct_change (map Close data)) NotANumber /\
  High_Low_Ratio row =
    nth i (zip_with (fun h l => fdiv (Some h) (Some l))
                    (map High data) (map Low data)) NotANumber /\
  MA_Ratio row =
    nth i (zip_with fdiv (rolling_mean 20 (map Some (map Close data)))
                         (rolling_mean 50 (map Some (map Close data))))
        NotANumber /\
  Next_Day_Up row =
    nth i (zip_with (fun next c => if gt_nan next (Some c) then 1%Z else 0%Z)
                    (shift_up (map Close data)) (map Close data)) 0%Z.
Proof.
  unfold features_frame, calculate_moving_averages. cbv zeta. cbv iota beta.
  rewrite nth_error_map. intro H.
  destruct (nth_error (seq 0 (length data)) i) as [j|] eqn:E; [|discriminate].
  assert (Hi : (i < length data)%nat).
  { assert (L : (i < length (seq 0 (length data)))%nat)
      by (apply nth_error_Some; rewrite E; discriminate).
    rewrite length_seq in L. exact L. }
  rewrite nth_error_nth' with (d := 0%nat) in E by (rewrite length_seq; exact Hi).
  rewrite seq_nth in E by exact Hi. simpl in E. inversion E; subst j.
  simpl in H. inversion H; subst row; clear H. simpl.
  repeat split; auto.
Qed.

Lemma nth_error_of_nth {A : Type} (l : list A) i d x :
  (i < length l)%nat -> nth i l d = x -> nth_error l i = Some x.
Proof.
  intros Hi E. rewrite (nth_error_nth' l d Hi). congruence.
Qed.

Lemma rolling_mean_defined_from window s i :
  nth i (rolling_mean window s) None <> None -> (window <= S i)%nat.
Proof.
  intro H. destruct (Nat.lt_ge_cases (S i) window) as [Hlt|Hge]; [|exact Hge].
  exfalso. apply H. apply rolling_mean_warm_up. exact Hlt.
Qed.

Lemma no_nan_fields r :
  no_nan r = true ->
  feature_RSI r <> None /\ feature_MA20 r <> None /\
  feature_MA50 r <> None /\ Price_Change r <> NotANumber /\
  High_Low_Ratio r <> NotANumber /\ MA_Ratio r <> NotANumber.
Proof.
  unfold no_nan. rewrite !andb_true_iff.
  intros [[[[[H1 H2] H3] H4] H5] H6].
  destruct (feature_RSI r), (feature_MA20 r), (feature_MA50 r); try discriminate.
  destruct (Price_Change r), (High_Low_Ratio r), (MA_Ratio r);
    try discriminate; repeat split; discriminate.
Qed.

Lemma filter_map_seq_bound {A : Type} (p : A -> bool) (f : nat -> A) k n :
  (forall i, (i < k)%nat -> p (f i) = false) ->
  (length (filter p (map f (seq 0 n))) <= n - k)%nat.
Proof.
  intro Hk.
  assert (Hnil : forall m, (m <= k)%nat -> filter p (map f (seq 0 m)) = []).
  { intros m Hm.
    assert (F : Forall (fun x => p x = false) (map f (seq 0 m))).
    { apply Forall_forall. intros x Hx. apply in_map_iff in Hx.
      destruct Hx as [i [Hx Hi]]. apply in_seq in Hi. subst x.
      apply Hk. lia. }
    induction F as [|x l Hx _ IH]; simpl; [reflexivity|].
    rewrite Hx. exact IH. }
  destruct (Nat.le_gt_cases n k) as [Hle|Hgt].
  - rewrite Hnil by exact Hle. simpl. lia.
  - replace n with (k + (n - k))%nat at 1 by lia.
    rewrite seq_app, map_app, filter_app, length_app, Hnil by lia.
    simpl. etransitivity; [apply filter_length_le|].
    rewrite length_map, length_seq. lia.
Qed.

(** [prepare_features] keeps rows of the data in their order, only from
    the 50th bar on and only with every indicator defined (the RSI
    between 0 and 100) and no NaN among the three ratios.  So it returns
    at most [len(data) - 49] rows, and none for fewer than 50 bars. *)
Theorem prepared_rows_are_warmed_up :
  forall data,
    (length (prepare_features data) <= length data - 49)%nat /\
    forall row,
      In row (prepare_features data) ->
      exists i bar rsi ma20 ma50,
        nth_error data i = Some bar /\ (49 <= i)%nat /\
        feature_date row = bar_date bar /\
        feature_Price row = Close bar /\
        feature_RSI row = Some rsi /\ 0 <= rsi <= 100 /\
        feature_MA20 row = Some ma20 /\ feature_MA50 row = Some ma50 /\
        Price_Change row <> NotANumber /\
        High_Low_Ratio row <> NotANumber /\ MA_Ratio row <> NotANumber.
Proof.
  intro data. split.
  - unfold prepare_features, dropna, features_frame,
      calculate_moving_averages. cbv zeta. cbv iota beta.
    apply filter_map_seq_bound. intros i Hi. unfold no_nan. simpl.
    rewrite (rolling_mean_warm_up 50) by lia. simpl.
    rewrite !andb_false_r. reflexivity.
  - intros row Hin. unfold prepare_features, dropna in Hin.
    apply filter_In in Hin. destruct Hin as [Hin Hok].
    apply In_nth_error in Hin. destruct Hin as [i Hi].
    apply features_frame_nth in Hi.
    destruct Hi as [Hi [Hd [Hp [Hr [H20 [H50 _]]]]]].
    apply no_nan_fields in Hok.
    destruct Hok as [N1 [N2 [N3 [N4 [N5 N6]]]]].
    destruct (nth_error data i) as [bar|] eqn:Eb.
    2:{ apply nth_error_None in Eb. lia. }
    destruct (feature_RSI row) as [rsi|] eqn:Er; [|contradiction].
    destruct (feature_MA20 row) as [ma20|] eqn:E20; [|contradiction].
    destruct (feature_MA50 row) as [ma50|] eqn:E50; [|contradiction].
    exists i, bar, rsi, ma20, ma50.
    split; [exact Eb|]. split.
    { assert (50 <= S i)%nat; [|lia].
      apply (rolling_mean_defined_from 50 (map Some (map Close data)) i).
      rewrite <- H50. discriminate. }
    split.
    { rewrite Hd. rewrite nth_indep with (d' := bar_date bar)
        by (rewrite length_map; exact Hi).
      rewrite map_nth. f_equal. apply nth_error_nth. exact Eb. }
    split.
    { rewrite Hp. rewrite nth_indep with (d' := Close bar)
        by (rewrite length_map; exact Hi).
      rewrite map_nth. f_equal. apply nth_error_nth. exact Eb. }
    split; [reflexivity|]. split.
    { apply (calculate_rsi_bounds (map Close data) 14 i).
      apply nth_error_of_nth with (d := None); [|congruence].
      rewrite calculate_rsi_length, length_map. exact Hi. }
    repeat split; auto.
Qed.

Lemma prepared_rows_are_warmed_up_witness :
  exists i bar,
    nth_error (sample_bars 60) i = Some bar /\ (49 <= i)%nat /\
    feature_date (nth 0 (prepare_features (sample_bars 60))
                      (mkFeatureRow 0 None None None 0 0
                         NotANumber NotANumber NotANumber 0))
    = bar_date bar.
Proof.
  destruct (prepared_rows_are_warmed_up (sample_bars 60)) as [_ H].
  destruct (H (nth 0 (prepare_features (sample_bars 60))
                  (mkFeatureRow 0 None None None 0 0
                     NotANumber NotANumber NotANumber 0)))
    as [i [bar [rsi [ma20 [ma50 [H1 [H2 [H3 _]]]]]]]].
  - apply nth_In. apply Nat.ltb_lt. vm_compute. reflexivity.
  - exists i, bar. auto.
Defined.

Lemma shift_up_nth_error (s : list Q) i :
  (i < length s)%nat -> nth_error (shift_up s) i = Some (nth_error s (S i)).
Proof.
  destruct s as [|a rest]; simpl; [lia|]. intro Hi.
  assert (G : forall (l : list Q) j, (j <= length l)%nat ->
              nth_error (map Some l ++ [None]) j = Some (nth_error l j)).
  { induction l as [|x l IH]; intros j Hj; simpl in *.
    - destruct j; [reflexivity | lia].
    - destruct j as [|j]; [reflexivity|]. simpl. apply IH. lia. }
  apply G. lia.
Qed.

Lemma shift_up_length (s : list Q) : length (shift_up s) = length s.
Proof.
  destruct s; simpl; [reflexivity|].
  rewrite length_app, length_map. simpl. lia.
Qed.

Lemma zip_with_nth_error_intro {A B C : Type} (f : A -> B -> C) xs ys i x y :
  nth_error xs i = Some x -> nth_error ys i = Some y ->
  nth_error (zip_with f xs ys) i = Some (f x y).
Proof.
  revert ys i. induction xs as [|a xs IH]; intros ys i Hx Hy.
  - destruct i; discriminate.
  - destruct ys as [|b ys]; [destruct i; discriminate|].
    destruct i as [|i]; simpl in *.
    + inversion Hx; inversion Hy; reflexivity.
    + apply IH; assumption.
Qed.

(** The label of a row at position [i] of the frame. *)
Lemma features_frame_label data i row bar :
  nth_error (features_frame data) i = Some row ->
  nth_error data i = Some bar ->
  Next_Day_Up row =
  match nth_error data (S i) with
  | Some next => if Qlt_bool (Close bar) (Close next) then 1%Z else 0%Z
  | None => 0%Z
  end.
Proof.
  intros Hrow Hbar. apply features_frame_nth in Hrow.
  destruct Hrow as [Hi [_ [_ [_ [_ [_ [_ [_ [_ Hl]]]]]]]]].
  rewrite Hl. apply nth_error_nth.
  rewrite (zip_with_nth_error_intro _ _ _ i
             (nth_error (map Close data) (S i)) (Close bar)).
  - rewrite nth_error_map. destruct (nth_error data (S i)); reflexivity.
  - apply shift_up_nth_error. rewrite length_map. exact Hi.
  - rewrite nth_error_map, Hbar. reflexivity.
Qed.

(** Every row [prepare_features] returns is labelled from the bar after
    its own: [Next_Day_Up] is 1 when that bar closes higher and 0 when it
    does not.  The row of the last bar has no bar after it and is
    labelled 0 all the same. *)
Theorem next_day_label :
  forall data row,
    In row (prepare_features data) ->
    exists i bar,
      nth_error data i = Some bar /\
      feature_date row = bar_date bar /\
      feature_Price row = Close bar /\
      match nth_error data (S i) with
      | Some next =>
          (Close bar < Close next /\ Next_Day_Up row = 1%Z) \/
          (Close next <= Close bar /\ Next_Day_Up row = 0%Z)
      | None => S i = length data /\ Next_Day_Up row = 0%Z
      end.
Proof.
  intros data row Hin. unfold prepare_features, dropna in Hin.
  apply filter_In in Hin. destruct Hin as [Hin _].
  apply In_nth_error in Hin. destruct Hin as [i Hi].
  pose proof (features_frame_nth _ _ _ Hi) as [Hlt [Hd [Hp _]]].
  destruct (nth_error data i) as [bar|] eqn:Eb.
  2:{ apply nth_error_None in Eb. lia. }
  pose proof (features_frame_label data i row bar Hi Eb) as Hl.
  exists i, bar. split; [exact Eb|]. split.
  { rewrite Hd. rewrite nth_indep with (d' := bar_date bar)
      by (rewrite length_map; exact Hlt).
    rewrite map_nth. f_equal. apply nth_error_nth. exact Eb. }
  split.
  { rewrite Hp. rewrite nth_indep with (d' := Close bar)
      by (rewrite length_map; exact Hlt).
    rewrite map_nth. f_equal. apply nth_error_nth. exact Eb. }
  destruct (nth_error data (S i)) as [next|] eqn:En.
  - destruct (Qlt_bool (Close bar) (Close next)) eqn:E.
    + left. apply Qlt_bool_iff in E. auto.
    + right. split; [|exact Hl].
      apply Qnot_lt_le. intro H. apply Qlt_bool_iff in H. congruence.
  - split; [|exact Hl]. apply nth_error_None in En. lia.
Qed.

Lemma next_day_label_witness :
  exists i bar,
    nth_error (sample_bars 60) i = Some bar /\
    feature_date (nth 10 (prepare_features (sample_bars 60))
                      (mkFeatureRow 0 None None None 0 0
                         NotANumber NotANumber NotANumber 0))
    = bar_date bar /\
    nth_error (sample_bars 60) (S i) = None /\
    Next_Day_Up (nth 10 (prepare_features (sample_bars 60))
                     (mkFeatureRow 0 None None None 0 0
                        NotANumber NotANumber NotANumber 0)) = 0%Z.
Proof.
  exists 59%nat. eexists. split; [vm_compute; reflexivity|].
  split; [vm_compute; reflexivity|]. split; [reflexivity|].
  destruct (next_day_label (sample_bars 60)
              (nth 10 (prepare_features (sample_bars 60))
                   (mkFeatureRow 0 None None None 0 0
                      NotANumber NotANumber NotANumber 0)))
    as [i [bar [H1 [H2 [H3 H4]]]]].
  - apply nth_In. apply Nat.ltb_lt. vm_compute. reflexivity.
  - destruct (nth_error (sample_bars 60) (S i)) as [next|].
    + destruct H4 as [[_ H4]|[_ H4]]; [|exact H4].
      vm_compute in H4. discriminate.
    + apply H4.
Defined.

Lemma nth_error_removelast {A : Type} (s : list A) i :
  (S i < length s)%nat -> nth_error (removelast s) i = nth_error s i.
Proof.
  revert i. induction s as [|a s IH]; intros i Hi; simpl in *; [lia|].
  destruct s as [|b s]; [simpl in Hi; lia|].
  destruct i as [|i]; [reflexivity|]. simpl. apply IH. simpl in *. lia.
Qed.

Lemma shift_down_nth_error (s : list Q) i :
  (S i < length s)%nat ->
  nth_error (shift_down s) (S i) = Some (nth_error s i).
Proof.
  intro Hi. destruct s as [|a rest]; [simpl in Hi; lia|].
  unfold shift_down.
  change (nth_error (map Some (removelast (a :: rest))) i
          = Some (nth_error (a :: rest) i)).
  rewrite nth_error_map, nth_error_removelast by exact Hi.
  destruct (nth_error (a :: rest) i) eqn:E; [reflexivity|].
  apply nth_error_None in E. lia.
Qed.

Lemma Qsum_pos xs :
  Forall (fun c => 0 < c) xs -> xs <> [] -> 0 < Qsum xs.
Proof.
  induction 1 as [|x xs Hx Hall IH]; intro Hne; [contradiction|].
  simpl. destruct xs as [|y ys].
  - simpl. lra.
  - assert (0 < Qsum (y :: ys)) by (apply IH; discriminate). lra.
Qed.

(** On positive closes a trailing mean is defined and positive from its
    [window]-th row on. *)
Lemma rolling_mean_positive window prices i :
  Forall (fun c => 0 < c) prices ->
  (0 < window <= S i)%nat -> (i < length prices)%nat ->
  exists m, nth_error (rolling_mean window (map Some prices)) i = Some (Some m)
            /\ 0 < m.
Proof.
  intros Hall Hw Hi.
  eexists. split; [apply rolling_mean_full_window; assumption|].
  set (win := firstn window (skipn (S i - window) prices)).
  assert (Hlen : length win = window).
  { unfold win. rewrite length_firstn, length_skipn. lia. }
  assert (Hpos : 0 < Qsum win).
  { apply Qsum_pos.
    - rewrite Forall_forall in *. intros c Hc. apply Hall.
      rewrite <- (firstn_skipn (S i - window) prices). apply in_or_app. right.
      rewrite <- (firstn_skipn window (skipn (S i - window) prices)).
      apply in_or_app. left. exact Hc.
    - intro E. rewrite E in Hlen. simpl in Hlen. lia. }
  apply Qlt_shift_div_l; [|lra].
  change 0 with (inject_Z 0). rewrite <- Zlt_Qlt. lia.
Qed.

Lemma fdiv_finite a b :
  ~ b == 0 -> fdiv (Some a) (Some b) = Finite (a / b).
Proof.
  intro H. unfold fdiv. destruct (Qeq_bool b 0) eqn:E; [|reflexivity].
  apply Qeq_bool_iff in E. contradiction.
Qed.

(** When every bar has a positive low and a positive close, the only
    rows [dropna] removes are the 49 warm-up rows and the rows whose RSI
    is undefined: no quotient column is NaN from the 50th bar on. *)
Theorem only_warm_up_and_rsi_gaps_are_dropped :
  forall data i row,
    Forall (fun b => 0 < Low b /\ 0 < Close b) data ->
    nth_error (features_frame data) i = Some row ->
    (no_nan row = true <-> (49 <= i)%nat /\ feature_RSI row <> None).
Proof.
  intros data i row Hall Hrow.
  pose proof (features_frame_nth _ _ _ Hrow)
    as [Hi [_ [_ [_ [H20 [H50 [Hpc [Hhl [Hmr _]]]]]]]]].
  split.
  - intro Hok. apply no_nan_fields in Hok.
    destruct Hok as [N1 [_ [N3 _]]]. split; [|exact N1].
    assert (50 <= S i)%nat; [|lia].
    apply (rolling_mean_defined_from 50 (map Some (map Close data)) i).
    rewrite <- H50. exact N3.
  - intros [H49 Hrsi].
    assert (Hclose : Forall (fun c => 0 < c) (map Close data)).
    { apply Forall_forall. intros c Hc. apply in_map_iff in Hc.
      destruct Hc as [b [Hb Hin]]. subst c.
      rewrite Forall_forall in Hall. apply (Hall b Hin). }
    assert (Hlen : (i < length (map Close data))%nat)
      by (rewrite length_map; exact Hi).
    destruct (rolling_mean_positive 20 (map Close data) i Hclose)
      as [m20 [E20 P20]]; [lia | exact Hlen |].
    destruct (rolling_mean_positive 50 (map Close data) i Hclose)
      as [m50 [E50 P50]]; [lia | exact Hlen |].
    (* the bar, its low and the close before it *)
    destruct (nth_error data i) as [bar|] eqn:Eb.
    2:{ apply nth_error_None in Eb. lia. }
    destruct i as [|k]; [lia|].
    destruct (nth_error data k) as [prev|] eqn:Ep.
    2:{ apply nth_error_None in Ep. lia. }
    assert (Hbar : 0 < Low bar /\ 0 < Close bar).
    { rewrite Forall_forall in Hall. apply Hall.
      apply nth_error_In with (n := S k). exact Eb. }
    assert (Hprev : 0 < Low prev /\ 0 < Close prev).
    { rewrite Forall_forall in Hall. apply Hall.
      apply nth_error_In with (n := k). exact Ep. }
    unfold no_nan.
    rewrite H20, H50, Hpc, Hhl, Hmr.
    rewrite (nth_error_nth _ _ None E20), (nth_error_nth _ _ None E50).
    rewrite (nth_error_nth _ _ NotANumber
               (zip_with_nth_error_intro fdiv _ _ _ _ _ E20 E50)).
    rewrite (nth_error_nth _ _ NotANumber
               (zip_with_nth_error_intro
                  (fun h l => fdiv (Some h) (Some l))
                  (map High data) (map Low data) (S k) (High bar) (Low bar)
                  ltac:(rewrite nth_error_map, Eb; reflexivity)
                  ltac:(rewrite nth_error_map, Eb; reflexivity))).
    unfold pct_change.
    rewrite (nth_error_nth _ _ NotANumber
               (zip_with_nth_error_intro
                  (fun x p => fsub1 (fdiv (Some x) p))
                  (map Close data) (shift_down (map Close data)) (S k)
                  (Close bar) (Some (Close prev))
                  ltac:(rewrite nth_error_map, Eb; reflexivity)
                  ltac:(rewrite shift_down_nth_error by exact Hlen;
                        rewrite nth_error_map, Ep; reflexivity))).
    rewrite !fdiv_finite by lra.
    destruct (feature_RSI row); [reflexivity | contradiction].
Qed.

Lemma only_warm_up_and_rsi_gaps_are_dropped_witness :
  no_nan (nth 49 (features_frame (sample_bars 60))
              (mkFeatureRow 0 None None None 0 0
                 NotANumber NotANumber NotANumber 0)) = true.
Proof.
  apply (only_warm_up_and_rsi_gaps_are_dropped (sample_bars 60) 49).
  - apply Forall_forall. intros b Hb.
    assert (E : forallb (fun b => Qlt_bool 0 (Low b) && Qlt_bool 0 (Close b))
                        (sample_bars 60) = true)
      by (vm_compute; reflexivity).
    rewrite forallb_forall in E. specialize (E b Hb).
    apply andb_true_iff in E. destruct E as [E1 E2].
    split; apply Qlt_bool_iff; assumption.
  - apply nth_error_nth'. vm_compute. lia.
  - split; [lia|]. vm_compute. discriminate.
Defined.

(** ** [_safe_message] *)

Lemma replace_from_absent old new c : forall s k,
  ~ In c s -> ~ In c new -> ~ In c (replace_from old new k s).
Proof.
  induction s as [|x s IH]; intros k Hs Hn; simpl; [tauto|].
  assert (Hs' : ~ In c s) by (intro H; apply Hs; right; exact H).
  destruct k as [|k]; [|apply IH; assumption].
  destruct (starts_with old (x :: s)).
  - intro H. apply in_app_or in H. destruct H as [H|H]; [tauto|].
    revert H. apply IH; assumption.
  - intros [H|H]; [apply Hs; left; exact H|].
    revert H. apply IH; assumption.
Qed.

Lemma replace_single_removes k new : forall s,
  ~ In k new -> ~ In k (str_replace [k] new s).
Proof.
  unfold str_replace. induction s as [|x s IH]; intro Hn; simpl; [tauto|].
  destruct (k =? x)%Z eqn:E; simpl.
  - intro H. apply in_app_or in H. destruct H as [H|H]; [tauto|].
    revert H. apply IH. exact Hn.
  - apply Z.eqb_neq in E. intros [H|H]; [congruence|].
    revert H. apply IH. exact Hn.
Qed.

Lemma replace_absent_head o old new : forall s,
  ~ In o s -> str_replace (o :: old) new s = s.
Proof.
  unfold str_replace. induction s as [|x s IH]; intro Hs; simpl; [reflexivity|].
  assert (E : (o =? x)%Z = false).
  { apply Z.eqb_neq. intro H. apply Hs. left. symmetry. exact H. }
  rewrite E. simpl. rewrite IH; [reflexivity|].
  intro H. apply Hs. right. exact H.
Qed.

Lemma no_adjacent_tail a b x s :
  no_adjacent a b (x :: s) -> no_adjacent a b s.
Proof.
  destruct s as [|y s]; simpl; tauto.
Qed.

Lemma no_adjacent_app a b l1 : forall l2,
  ~ In a l1 -> no_adjacent a b l2 -> no_adjacent a b (l1 ++ l2).
Proof.
  induction l1 as [|x l1 IH]; intros l2 Ha H2; simpl; [exact H2|].
  assert (Hx : x <> a) by (intro E; apply Ha; left; exact E).
  assert (Ha' : ~ In a l1) by (intro E; apply Ha; right; exact E).
  specialize (IH l2 Ha' H2).
  destruct (l1 ++ l2) eqn:E; [exact I|]. split; [tauto | exact IH].
Qed.

(** The output starts with [b] only if the input does, when [new] is not
    empty and has no [b]. *)
Lemma replace_from_head old new b s :
  new <> [] -> ~ In b new ->
  hd_error (replace_from old new 0 s) = Some b -> hd_error s = Some b.
Proof.
  intros Hne Hb. destruct s as [|x s]; simpl; [discriminate|].
  destruct (starts_with old (x :: s)); [|tauto].
  destruct new as [|n new]; [contradiction|]. simpl.
  intro H. inversion H. exfalso. apply Hb. left. assumption.
Qed.

Lemma replace_from_keeps_no_adjacent a b old new : forall s k,
  new <> [] -> ~ In a new -> ~ In b new ->
  no_adjacent a b s -> no_adjacent a b (replace_from old new k s).
Proof.
  induction s as [|x s IH]; intros k Hne Ha Hb Hs; [exact I|].
  pose proof (no_adjacent_tail _ _ _ _ Hs) as Hs'.
  simpl. destruct k as [|k]; [|apply IH; assumption].
  destruct (starts_with old (x :: s)).
  - apply no_adjacent_app; [exact Ha|]. apply IH; assumption.
  - pose proof (IH 0%nat Hne Ha Hb Hs') as Hout.
    destruct (replace_from old new 0 s) as [|y out] eqn:E; [exact I|].
    split; [|exact Hout]. intros [Hx Hy]. subst x y.
    assert (Hh : hd_error s = Some b).
    { apply (replace_from_head old new b s Hne Hb). rewrite E. reflexivity. }
    destruct s as [|y s]; [discriminate|]. simpl in Hh. inversion Hh; subst y.
    simpl in Hs. tauto.
Qed.

Lemma replace_pair_removes a b new : forall s k,
  new <> [] -> ~ In a new -> ~ In b new ->
  no_adjacent a b (replace_from [a; b] new k s).
Proof.
  induction s as [|x s IH]; intros k Hne Ha Hb; [exact I|].
  simpl. destruct k as [|k]; [|apply IH; assumption].
  destruct ((a =? x)%Z && _) eqn:Em.
  - apply no_adjacent_app; [exact Ha|]. apply IH; assumption.
  - pose proof (IH 0%nat Hne Ha Hb) as Hout.
    destruct (replace_from [a; b] new 0 s) as [|y out] eqn:E; [exact I|].
    split; [|exact Hout]. intros [Hx Hy]. subst x y.
    assert (Hh : hd_error s = Some b).
    { apply (replace_from_head [a; b] new b s Hne Hb). rewrite E. reflexivity. }
    destruct s as [|y s]; [discriminate|]. simpl in Hh. inversion Hh; subst y.
    simpl in Em. rewrite !Z.eqb_refl in Em. discriminate.
Qed.

Lemma replace_pair_absent a b new : forall s,
  no_adjacent a b s -> str_replace [a; b] new s = s.
Proof.
  unfold str_replace. induction s as [|x s IH]; intro Hs; [reflexivity|].
  pose proof (no_adjacent_tail _ _ _ _ Hs) as Hs'.
  simpl. destruct ((a =? x)%Z && _) eqn:Em.
  - exfalso. apply andb_true_iff in Em. destruct Em as [E1 E2].
    apply Z.eqb_eq in E1. destruct s as [|y s]; [discriminate|].
    simpl in E2. apply andb_true_iff in E2. destruct E2 as [E2 _].
    apply Z.eqb_eq in E2. simpl in Hs. subst. tauto.
  - rewrite IH by exact Hs'. reflexivity.
Qed.

(** Through a whole table. *)
Lemma safe_text_removes_single k table : forall s,
  Forall (fun kv => ~ In k (snd kv)) table ->
  (~ In k s \/ exists new, In ([k], new) table) ->
  ~ In k (safe_text table s).
Proof.
  unfold safe_text.
  induction table as [|[old new] table IH]; intros s Hclean H; simpl.
  - destruct H as [H|[new []]]. exact H.
  - inversion Hclean as [|? ? Hn Hrest]; subst. simpl in Hn.
    apply IH; [exact Hrest|].
    destruct H as [H|[new' [H|H]]].
    + left. apply replace_from_absent; assumption.
    + inversion H; subst. left. apply replace_single_removes. exact Hn.
    + right. exists new'. exact H.
Qed.

Lemma safe_text_removes_pair a b table : forall s,
  Forall (fun kv => snd kv <> [] /\ ~ In a (snd kv) /\ ~ In b (snd kv)) table ->
  (no_adjacent a b s \/ exists new, In ([a; b], new) table) ->
  no_adjacent a b (safe_text table s).
Proof.
  unfold safe_text.
  induction table as [|[old new] table IH]; intros s Hclean H; simpl.
  - destruct H as [H|[new []]]. exact H.
  - inversion Hclean as [|? ? [Hne [Ha Hb]] Hrest]; subst. simpl in *.
    apply IH; [exact Hrest|].
    destruct H as [H|[new' [H|H]]].
    + left. apply replace_from_keeps_no_adjacent; assumption.
    + inversion H; subst. left. apply replace_pair_removes; assumption.
    + right. exists new'. exact H.
Qed.

Lemma safe_text_fixed table : forall s,
  Forall (fun kv => str_replace (fst kv) (snd kv) s = s) table ->
  safe_text table s = s.
Proof.
  unfold safe_text. induction table as [|kv table IH]; intros s H; simpl.
  - reflexivity.
  - inversion H as [|? ? Hkv Hrest]; subst. rewrite Hkv. apply IH. exact Hrest.
Qed.

Lemma replacements_clean c :
  (In c single_symbols \/ c = 0x26a0 \/ c = 0xfe0f)%Z ->
  Forall (fun kv => snd kv <> [] /\ ~ In c (snd kv)) replacements.
Proof.
  intro H. unfold replacements.
  repeat constructor; simpl; try discriminate;
    intro Hin; unfold single_symbols in H; simpl in H; lia.
Qed.

Lemma safe_text_clean s :
  Forall (fun c => ~ In c single_symbols) (safe_text replacements s) /\
  no_adjacent 0x26a0 0xfe0f (safe_text replacements s).
Proof.
  split.
  - apply Forall_forall. intros c Hc Hsym.
    revert Hc. apply safe_text_removes_single.
    + eapply Forall_impl; [|apply (replacements_clean c); left; exact Hsym].
      intros kv [_ H]. exact H.
    + right. unfold single_symbols in Hsym. simpl in Hsym.
      unfold replacements.
      repeat (destruct Hsym as [Hsym|Hsym];
              [subst c; eexists; simpl; intuition reflexivity|]).
      contradiction.
  - apply safe_text_removes_pair.
    + pose proof (replacements_clean 0x26a0 ltac:(right; left; reflexivity))
        as Ha.
      pose proof (replacements_clean 0xfe0f ltac:(right; right; reflexivity))
        as Hb.
      rewrite Forall_forall in *. intros kv Hkv.
      destruct (Ha kv Hkv) as [Hne Ha']. destruct (Hb kv Hkv) as [_ Hb'].
      auto.
    + right. eexists. unfold replacements. simpl. intuition reflexivity.
Qed.

Lemma safe_text_fixed_when_clean s :
  Forall (fun c => ~ In c single_symbols) s ->
  no_adjacent 0x26a0 0xfe0f s ->
  safe_text replacements s = s.
Proof.
  intros Hs Hp. apply safe_text_fixed. rewrite Forall_forall in Hs.
  unfold replacements.
  repeat constructor; simpl;
    first [ apply replace_pair_absent; exact Hp
          | apply replace_absent_head; intro Hin; apply (Hs _ Hin);
            unfold single_symbols; simpl; tauto ].
Qed.

(** The text [_safe_message] returns holds none of the twelve
    single-code-point symbols of the table, and nowhere the warning sign
    followed by its variation selector; an object that is not a [str] is
    returned as it is. *)
Theorem safe_message_has_no_listed_symbol :
  forall (Obj : Type) (message : Message Obj),
    match message with
    | Str s =>
        exists out,
          _safe_message message = Str out /\
          Forall (fun c => ~ In c single_symbols) out /\
          no_adjacent 0x26a0 0xfe0f out
    | NotStr o => _safe_message message = NotStr o
    end.
Proof.
  intros Obj [s|o]; simpl; [|reflexivity].
  exists (safe_text replacements s). split; [reflexivity|].
  apply safe_text_clean.
Qed.

(** [_safe_message] changes nothing the second time: a message already
    made safe is returned as it is. *)
Theorem safe_message_idempotent :
  forall (Obj : Type) (message : Message Obj),
    _safe_message (_safe_message message) = _safe_message message.
Proof.
  intros Obj [s|o]; simpl; [|reflexivity]. f_equal.
  destruct (safe_text_clean s) as [H1 H2].
  apply safe_text_fixed_when_clean; assumption.
Qed.

(** A text without any of the twelve symbols and without a warning sign
    is returned unchanged; so is, in particular, every text made of code
    points below U+2000. *)
Theorem safe_message_keeps_plain_text :
  forall (Obj : Type) (s : list Z),
    (Forall (fun c => ~ In c single_symbols /\ c <> 0x26a0%Z) s \/
     Forall (fun c => (c < 0x2000)%Z) s) ->
    @_safe_message Obj (Str s) = Str s.
Proof.
  intros Obj s H. simpl. f_equal.
  assert (Hs : Forall (fun c => ~ In c single_symbols /\ c <> 0x26a0%Z) s).
  { destruct H as [H|H]; [exact H|].
    eapply Forall_impl; [|exact H]. intros c Hc. simpl in Hc.
    unfold single_symbols. simpl. lia. }
  apply safe_text_fixed_when_clean.
  - eapply Forall_impl; [|exact Hs]. intros c [Hc _]. exact Hc.
  - clear H. induction s as [|x s IH]; [exact I|].
    inversion Hs as [|? ? [_ Hx] Hrest]; subst. specialize (IH Hrest).
    destruct s as [|y s]; [exact I|]. split; [|exact IH].
    intros [E _]. contradiction.
Qed.

Lemma safe_message_keeps_plain_text_witness :
  @_safe_message unit (Str [82; 101; 116; 117; 114; 110; 58; 32; 43; 50]%Z)
  = Str [82; 101; 116; 117; 114; 110; 58; 32; 43; 50]%Z.
Proof.
  apply safe_message_keeps_plain_text. right.
  repeat constructor.
Defined.
